(** * Monitoring server plugin: a shallow embedding of
      [x-pack/plugins/monitoring/server/plugin.ts]

    The plugin is glue code: it wires a license stream to the bulk uploader,
    adapts legacy route handlers to the new router, and resolves legacy
    configuration keys.  The embedding keeps the shape of the TypeScript:
    dynamically typed values are [jsval]s with JavaScript truthiness, a
    function that may throw returns an [outcome], and the mutable plugin
    instance is an explicit record threaded through the lifecycle methods. *)

From Stdlib Require Import ZArith String Ascii List Bool Lia DecimalString.
Import ListNotations.

Open Scope string_scope.
Open Scope list_scope.

(** ** JavaScript values *)

Module Js.

(** [instanceof Error] is the only class test the plugin relies on. *)
Inductive jsclass := PlainObject | ErrorInstance.

(** Numbers are the integers the plugin meets (status codes); a string is
    its sequence of code units, those below 256; functions are not values
    here, they are Rocq functions of the surrounding records. *)
#[warnings="-register-all"]
Inductive jsval :=
| JUndefined
| JNull
| JBool (b : bool)
| JNum (n : Z)
| JStr (s : string)
| JObj (cls : jsclass) (fields : list (string * jsval)).

(** A call either returns or throws a value. *)
Inductive outcome (A : Type) :=
| Returned (a : A)
| Threw (e : jsval).
Arguments Returned {A} a.
Arguments Threw {A} e.

Definition bind {A B} (m : outcome A) (k : A -> outcome B) : outcome B :=
  match m with
  | Returned a => k a
  | Threw e => Threw e
  end.

Notation "x <- m ;; k" := (bind m (fun x => k))
  (at level 61, m at next level, right associativity).

(** [new Error(message)] and the [TypeError] of a bad property access. *)
Definition new_Error (message : string) : jsval :=
  JObj ErrorInstance [("message", JStr message)].

Definition new_TypeError (message : string) : jsval :=
  JObj ErrorInstance [("name", JStr "TypeError"); ("message", JStr message)].

Definition truthy (v : jsval) : bool :=
  match v with
  | JUndefined | JNull => false
  | JBool b => b
  | JNum n => negb (n =? 0)%Z
  | JStr s => negb (s =? "")
  | JObj _ _ => true
  end.

Definition nullish (v : jsval) : bool :=
  match v with
  | JUndefined | JNull => true
  | _ => false
  end.

(** [a || b] and [a ?? b]. *)
Definition or_else (a b : jsval) : jsval := if truthy a then a else b.
Definition coalesce (a b : jsval) : jsval := if nullish a then b else a.

Fixpoint lookup (k : string) (fields : list (string * jsval)) : option jsval :=
  match fields with
  | [] => None
  | (k', v) :: rest => if k' =? k then Some v else lookup k rest
  end.

Fixpoint assign (k : string) (v : jsval) (fields : list (string * jsval))
  : list (string * jsval) :=
  match fields with
  | [] => [(k, v)]
  | (k', v') :: rest =>
      if k' =? k then (k, v) :: rest else (k', v') :: assign k v rest
  end.

(** [o.k] on a non-nullish [o]; primitives carry none of the properties the
    plugin reads. *)
Definition prop (o : jsval) (k : string) : jsval :=
  match o with
  | JObj _ fields =>
      match lookup k fields with
      | Some v => v
      | None => JUndefined
      end
  | _ => JUndefined
  end.

(** [o?.k] *)
Definition opt_prop (o : jsval) (k : string) : jsval :=
  if nullish o then JUndefined else prop o k.

(** [o.k = v] on an object. *)
Definition set_prop (o : jsval) (k : string) (v : jsval) : jsval :=
  match o with
  | JObj cls fields => JObj cls (assign k v fields)
  | _ => o
  end.

(** [a === n] against a number literal. *)
Definition strict_eq_num (a : jsval) (n : Z) : bool :=
  match a with
  | JNum m => (m =? n)%Z
  | _ => false
  end.

Definition is_error_instance (v : jsval) : bool :=
  match v with
  | JObj ErrorInstance _ => true
  | _ => false
  end.

End Js.
Import Js.

(** ** Strings: [RegExp.prototype.test], [includes], [split] *)

Module JsString.

Definition is_lower (c : ascii) : bool :=
  let n := nat_of_ascii c in (97 <=? n)%nat && (n <=? 122)%nat.

(** Canonicalisation of a character under the [i] flag: the upper-case form. *)
Definition canonicalize (c : ascii) : ascii :=
  if is_lower c then ascii_of_nat (nat_of_ascii c - 32) else c.

Fixpoint fold_case (s : string) : string :=
  match s with
  | EmptyString => EmptyString
  | String c s' => String (canonicalize c) (fold_case s')
  end.

(** The literal pattern [p] matches at the start of [s], letters compared
    after canonicalisation. *)
Fixpoint matches_here_i (p s : string) : bool :=
  match p, s with
  | EmptyString, _ => true
  | String _ _, EmptyString => false
  | String a p', String b s' =>
      Ascii.eqb (canonicalize a) (canonicalize b) && matches_here_i p' s'
  end.

(** An unanchored literal pattern with the [i] flag: try every start index. *)
Fixpoint test_literal_i (p s : string) : bool :=
  matches_here_i p s ||
  match s with
  | EmptyString => false
  | String _ s' => test_literal_i p s'
  end.

(** Case-sensitive prefix test and [String.prototype.includes]. *)
Fixpoint starts_with (p s : string) : bool :=
  match p, s with
  | EmptyString, _ => true
  | String _ _, EmptyString => false
  | String a p', String b s' => Ascii.eqb a b && starts_with p' s'
  end.

Fixpoint includes (sep s : string) : bool :=
  starts_with sep s ||
  match s with
  | EmptyString => false
  | String _ s' => includes sep s'
  end.

Fixpoint rev_string (acc s : string) : string :=
  match s with
  | EmptyString => acc
  | String c s' => rev_string (String c acc) s'
  end.

(** [s.split(sep)] for a non-empty separator, scanning left to right.
    [skip] counts the characters of a separator occurrence still to be
    passed over; [cur] is the current segment, reversed. *)
Fixpoint split_scan (sep : string) (skip : nat) (cur : string) (s : string)
  : list string :=
  match s with
  | EmptyString => [rev_string "" cur]
  | String c s' =>
      match skip with
      | S k => split_scan sep k cur s'
      | O =>
          if starts_with sep s
          then rev_string "" cur :: split_scan sep (String.length sep - 1) "" s'
          else split_scan sep O (String c cur) s'
      end
  end.

Definition split (sep s : string) : list string := split_scan sep 0 "" s.

(** [s.substring(n)] *)
Fixpoint drop (n : nat) (s : string) : string :=
  match n, s with
  | O, _ => s
  | S _, EmptyString => EmptyString
  | S k, String _ s' => drop k s'
  end.

End JsString.
Import JsString.

(** ** Conversions: [parseInt], [JSON.stringify] *)

Module JsConvert.

(** The decimal text of an integer. *)
Definition decimal (n : Z) : string := NilZero.string_of_int (Z.to_int n).

(** White space and line terminators. *)
Definition is_whitespace (c : ascii) : bool :=
  let n := nat_of_ascii c in
  ((9 <=? n)%nat && (n <=? 13)%nat) || (n =? 32)%nat || (n =? 160)%nat.

Fixpoint trim_start (s : string) : string :=
  match s with
  | EmptyString => EmptyString
  | String c s' => if is_whitespace c then trim_start s' else s
  end.

Definition digit (c : ascii) : option Z :=
  let n := nat_of_ascii c in
  if (48 <=? n)%nat && (n <=? 57)%nat then Some (Z.of_nat (n - 48)) else None.

(** The value of the longest run of digits at the start of [s], after the
    digits already [seen]; [None] when there is none. *)
Fixpoint digits (seen : option Z) (s : string) : option Z :=
  match s with
  | EmptyString => seen
  | String c s' =>
      match digit c with
      | Some d =>
          digits (Some (10 * match seen with Some v => v | None => 0 end + d)%Z) s'
      | None => seen
      end
  end.

(** [parseInt(s, 10)] of a string, [None] for [NaN]: leading white space, a
    sign, then digits up to the first other character. *)
Definition parseInt_string (s : string) : option Z :=
  match trim_start s with
  | String "-"%char s' => option_map Z.opp (digits None s')
  | String "+"%char s' => digits None s'
  | s' => digits None s'
  end.

(** [parseInt(v, 10)]: the text of a boolean, of [null], of [undefined] and
    of an object with the inherited [toString] starts with no digit. *)
Definition parseInt (v : jsval) : option Z :=
  match v with
  | JNum n => Some n
  | JStr s => parseInt_string s
  | _ => None
  end.

Definition double_quote : ascii := ascii_of_nat 34.
Definition backslash : ascii := ascii_of_nat 92.

Definition hex_digit (n : nat) : ascii :=
  ascii_of_nat (if (n <? 10)%nat then 48 + n else 87 + n).

(** One character inside a JSON string. *)
Definition json_char (c : ascii) : string :=
  let n := nat_of_ascii c in
  let escaped (e : ascii) := String backslash (String e EmptyString) in
  if (n =? 34)%nat then escaped double_quote
  else if (n =? 92)%nat then escaped backslash
  else if (n =? 8)%nat then escaped "b"%char
  else if (n =? 9)%nat then escaped "t"%char
  else if (n =? 10)%nat then escaped "n"%char
  else if (n =? 12)%nat then escaped "f"%char
  else if (n =? 13)%nat then escaped "r"%char
  else if (n <? 32)%nat
  then String backslash
         (String "u" (String "0" (String "0"
            (String (hex_digit (n / 16)) (String (hex_digit (n mod 16)) "")))))
  else String c EmptyString.

Fixpoint json_chars (s : string) : string :=
  match s with
  | EmptyString => EmptyString
  | String c s' => (json_char c ++ json_chars s')%string
  end.

Definition json_quote (s : string) : string :=
  String double_quote (json_chars s ++ String double_quote EmptyString)%string.

(** [JSON.stringify(v)], [None] for [undefined]; an object is written with
    the fields it lists, those holding [undefined] left out. *)
Fixpoint stringify (v : jsval) : option string :=
  match v with
  | JUndefined => None
  | JNull => Some "null"
  | JBool b => Some (if b then "true" else "false")
  | JNum n => Some (decimal n)
  | JStr s => Some (json_quote s)
  | JObj _ fields =>
      let fix members (sep : string) (fs : list (string * jsval)) : string :=
        match fs with
        | [] => EmptyString
        | (k, x) :: rest =>
            match stringify x with
            | Some t =>
                (sep ++ json_quote k ++ ":" ++ t ++ members "," rest)%string
            | None => members sep rest
            end
        end in
      Some ("{" ++ members "" fields ++ "}")%string
  end.

End JsConvert.
Import JsConvert.

(** ** The snapshot flag of [kibanaStats] *)

(** [const snapshotRegex = /-snapshot/i;] *)
Definition snapshotRegex_test (version : string) : bool :=
  test_literal_i "-snapshot" version.

(** The [version] and [snapshot] entries of the [kibanaStats] handed to
    [initBulkUploader]:
    [snapshot: snapshotRegex.test(this.initializerContext.env.packageInfo.version)] *)
Record KibanaStats := {
  version : string;
  snapshot : bool;
}.

Definition kibanaStats_of (packageInfo_version : string) : KibanaStats :=
  {| version := packageInfo_version;
     snapshot := snapshotRegex_test packageInfo_version |}.

(** The wording of the specification: the version contains the text
    [-snapshot] in some mixture of letter cases. *)
Definition contains_ignoring_case (needle s : string) : Prop :=
  exists pre mid post,
    s = (pre ++ mid ++ post)%string /\ fold_case mid = fold_case needle.

(** ** Legacy configuration wrapper *)

(** A configuration object is only ever inspected through lodash's
    [has(object, path)] and [get(object, path)]; it is represented by the
    dotted paths that resolve in it, each with the value found there, so
    that [{ ui: { enabled: true } }] is [[("ui.enabled", JBool true)]]. *)
Definition ConfigObject := list (string * jsval).

Definition has (object : ConfigObject) (path : string) : bool :=
  match lookup path object with
  | Some _ => true
  | None => false
  end.

Definition get (object : ConfigObject) (path : string) : jsval :=
  match lookup path object with
  | Some v => v
  | None => JUndefined
  end.

(** [_key.includes('monitoring.') ? _key.split('monitoring.')[1] : _key] *)
Definition legacy_key (_key : string) : string :=
  if includes "monitoring." _key
  then nth 1 (split "monitoring." _key) _key
  else _key.

Section LegacyConfigWrapper.

Variables (config legacyConfig : ConfigObject).
(** [this.legacyShimDependencies.instanceUuid] *)
Variable instanceUuid : string.

Definition legacyConfigWrapper_get (_key : string) : outcome jsval :=
  let key := legacy_key _key in
  if has config key then Returned (get config key)
  else if has legacyConfig key then Returned (get legacyConfig key)
  else if key =? "server.uuid" then Returned (JStr instanceUuid)
  else Threw (new_Error ("Unknown key '" ++ _key ++ "'")).

End LegacyConfigWrapper.

(** The wording of the specification for the key: everything up to and
    including the first [monitoring.] is dropped. *)
Fixpoint after_first (sep s : string) : string :=
  if starts_with sep s then drop (String.length sep) s
  else match s with
       | EmptyString => EmptyString
       | String _ s' => after_first sep s'
       end.

Definition stripped_key (k : string) : string :=
  if includes "monitoring." k then after_first "monitoring." k else k.

(** The other reading of the same words: up to the last [monitoring.]. *)
Fixpoint after_last (sep s : string) : string :=
  match s with
  | EmptyString => EmptyString
  | String _ s' =>
      if includes sep s' then after_last sep s'
      else if starts_with sep s then drop (String.length sep) s
      else EmptyString
  end.

Definition config_get_spec (config legacyConfig : ConfigObject)
    (instanceUuid k : string) : outcome jsval :=
  let key := stripped_key k in
  if has config key then Returned (get config key)
  else if has legacyConfig key then Returned (get legacyConfig key)
  else if key =? "server.uuid" then Returned (JStr instanceUuid)
  else Threw (new_Error ("Unknown key '" ++ k ++ "'")).

(** ** Errors decorated by the Boom library *)

Module Boom.

(** [Boom.isBoom(err)]: [err instanceof Error && !!err.isBoom]. *)
Definition isBoom (err : jsval) : bool :=
  is_error_instance err && truthy (prop err "isBoom").

Definition internal_message : string := "An internal server error occurred".

(** The status texts of the library, [Unknown] for any other code. *)
Definition codes : list (Z * string) :=
  [(100, "Continue"); (101, "Switching Protocols"); (102, "Processing");
   (200, "OK"); (201, "Created"); (202, "Accepted");
   (203, "Non-Authoritative Information"); (204, "No Content");
   (205, "Reset Content"); (206, "Partial Content"); (207, "Multi-Status");
   (300, "Multiple Choices"); (301, "Moved Permanently");
   (302, "Moved Temporarily"); (303, "See Other"); (304, "Not Modified");
   (305, "Use Proxy"); (307, "Temporary Redirect");
   (400, "Bad Request"); (401, "Unauthorized"); (402, "Payment Required");
   (403, "Forbidden"); (404, "Not Found"); (405, "Method Not Allowed");
   (406, "Not Acceptable"); (407, "Proxy Authentication Required");
   (408, "Request Time-out"); (409, "Conflict"); (410, "Gone");
   (411, "Length Required"); (412, "Precondition Failed");
   (413, "Request Entity Too Large"); (414, "Request-URI Too Large");
   (415, "Unsupported Media Type"); (416, "Requested Range Not Satisfiable");
   (417, "Expectation Failed"); (418, "I'm a teapot");
   (422, "Unprocessable Entity"); (423, "Locked"); (424, "Failed Dependency");
   (425, "Unordered Collection"); (426, "Upgrade Required");
   (428, "Precondition Required"); (429, "Too Many Requests");
   (431, "Request Header Fields Too Large");
   (451, "Unavailable For Legal Reasons");
   (500, "Internal Server Error"); (501, "Not Implemented");
   (502, "Bad Gateway"); (503, "Service Unavailable");
   (504, "Gateway Time-out"); (505, "HTTP Version Not Supported");
   (506, "Variant Also Negotiates"); (507, "Insufficient Storage");
   (509, "Bandwidth Limit Exceeded"); (510, "Not Extended");
   (511, "Network Authentication Required")]%Z.

Definition status_text (code : Z) : string :=
  match find (fun entry => (fst entry =? code)%Z) codes with
  | Some entry => snd entry
  | None => "Unknown"
  end.

(** The [output] the library attaches for a status code: the code, empty
    headers, and a payload of the code, its status text and a message, which
    is a fixed sentence for status 500 and the error's message otherwise. *)
Definition output_for (err : jsval) (code : Z) : jsval :=
  let message :=
    if (code =? 500)%Z then JStr internal_message else prop err "message" in
  JObj PlainObject
    [("statusCode", JNum code);
     ("payload",
       JObj PlainObject
         [("statusCode", JNum code);
          ("error", JStr (status_text code));
          ("message", message)]);
     ("headers", JObj PlainObject [])].

(** How a failed assertion of the library shows the value it refused: a
    string as it is, an [Error] by its message, anything else as JSON. *)
Definition shown (v : jsval) : string :=
  match v with
  | JStr s => s
  | JObj ErrorInstance _ =>
      match prop v "message" with
      | JStr m => m
      | JNum n => decimal n
      | JBool b => if b then "true" else "false"
      | JUndefined | JNull => EmptyString
      | JObj _ _ => "[object Object]"
      end
  | _ =>
      match stringify v with
      | Some text => text
      | None => EmptyString
      end
  end.

Definition not_a_status (statusCode : jsval) : jsval :=
  new_Error ("First argument must be a number (400+): " ++ shown statusCode).

(** [if (!err.hasOwnProperty('data')) err.data = null] *)
Definition with_data (err : jsval) : jsval :=
  match err with
  | JObj _ fields =>
      match lookup "data" fields with
      | Some _ => err
      | None => set_prop err "data" JNull
      end
  | _ => err
  end.

(** An error without a message is given the status text as its message. *)
Definition with_message (err : jsval) (code : Z) : jsval :=
  if truthy (prop err "message") then err
  else set_prop err "message" (JStr (status_text code)).

(** The error after decoration by [code]: the flags [isBoom] and [isServer],
    [data] unless the error has one, a message when it has none, and the
    [output].  (The [reformat] method, a function, is left out.) *)
Definition decorate (err : jsval) (code : Z) : jsval :=
  let err := set_prop err "isBoom" (JBool true) in
  let err := set_prop err "isServer" (JBool (500 <=? code)%Z) in
  let err := with_message (with_data err) code in
  set_prop err "output" (output_for err code).

(** [Boom.boomify(err, { statusCode })] on an error that is not yet a Boom
    error: only [Error] instances can be wrapped, a falsy code becomes 500,
    and the code, read by [parseInt], must be a number from 400 upwards. *)
Definition boomify (err : jsval) (statusCode : jsval) : outcome jsval :=
  if negb (is_error_instance err)
  then Threw (new_Error "Cannot wrap non-Error object")
  else
    let statusCode := or_else statusCode (JNum 500) in
    match parseInt statusCode with
    | Some code =>
        if (400 <=? code)%Z then Returned (decorate err code)
        else Threw (not_a_status statusCode)
    | None => Threw (not_a_status statusCode)
    end.

End Boom.

(** ** Responses *)

(** [CustomHttpResponseOptions<ResponseError>] *)
Record CustomHttpResponseOptions := {
  body : jsval;
  headers : jsval;
  statusCode : jsval;
}.

(** What the handler returns: the three calls it makes on the response
    factory, [res.ok({ body })], [res.customError({ statusCode, body })] and
    [res.internalError(options)]. *)
Inductive KibanaResponse :=
| res_ok (body : jsval)
| res_customError (statusCode : jsval) (body : jsval)
| res_internalError (options : CustomHttpResponseOptions).

(** Modelled from the spec: the response factory is not among the sources.
    A success is the 200-style response, a custom error carries the status it
    was given, and an internal error is the 500 response whatever its
    options say. *)
Definition response_status (r : KibanaResponse) : jsval :=
  match r with
  | res_ok _ => JNum 200
  | res_customError statusCode _ => statusCode
  | res_internalError _ => JNum 500
  end.

Definition response_body (r : KibanaResponse) : jsval :=
  match r with
  | res_ok b => b
  | res_customError _ b => b
  | res_internalError options => body options
  end.

(** [wrapError] *)
Definition wrapError (error : jsval) : outcome CustomHttpResponseOptions :=
  let options_statusCode := coalesce (prop error "statusCode") (JNum 500) in
  boom <- (if Boom.isBoom error then Returned error
           else Boom.boomify error options_statusCode) ;;
  Returned {| body := boom;
              headers := prop (prop boom "output") "headers";
              statusCode := prop (prop boom "output") "statusCode" |}.

(** [err.output?.statusCode || err.statusCode || err.status || 500] *)
Definition error_statusCode (err : jsval) : jsval :=
  or_else (opt_prop (prop err "output") "statusCode")
    (or_else (prop err "statusCode")
       (or_else (prop err "status") (JNum 500))).

(** The [catch (err)] block of the route handler.  Reading a property of
    [undefined] or [null] is itself a [TypeError]. *)
Definition handler_catch (err : jsval) : outcome KibanaResponse :=
  if nullish err
  then Threw (new_TypeError
                ("Cannot read property 'output' of "
                 ++ match err with JNull => "null" | _ => "undefined" end))
  else
    let statusCode := error_statusCode err in
    if Boom.isBoom err || negb (strict_eq_num statusCode 500)
    then Returned (res_customError statusCode err)
    else
      options <- wrapError err ;;
      Returned (res_internalError options).

(** Two thrown values: an object carrying [output.statusCode = 403], and a
    Boom error of status 500 such as [Boom.internal(message)] builds. *)
Definition forbidden_error : jsval :=
  JObj PlainObject
    [("output", JObj PlainObject [("statusCode", JNum 403)]);
     ("message", JStr "Forbidden")].

Definition boom_internal (message : string) : jsval :=
  Boom.decorate (new_Error message) 500.

(** ** The legacy request and its cluster callers *)

(** A cluster client: [client.asScoped(req).callAsCurrentUser(endpoint, params)]. *)
Record ClusterClient := {
  asScoped_callAsCurrentUser : jsval -> string -> jsval -> outcome jsval;
}.

(** [LegacyRequest], reduced to the spread request, [payload: req.body] and
    [server.plugins.elasticsearch.getCluster]; the logger and the getters of
    collaborating plugins are left out. *)
Record LegacyRequest := {
  request : jsval;
  payload : jsval;
  getCluster_callWithRequest : string -> jsval -> string -> jsval -> outcome jsval;
}.

Section LegacyShim.

(** [mbSafeQuery] of [./lib/mb_safe_query], a wrapper around the query
    function it is given, kept abstract; and the two clients of the shim:
    the [cluster] argument of [getLegacyShim] and
    [this.legacyShimDependencies.esDataClient]. *)
Variable mbSafeQuery : (unit -> outcome jsval) -> outcome jsval.
Variables (cluster esDataClient : ClusterClient).

(** [getCluster(name).callWithRequest(_req, endpoint, params)] inside the
    handler of request [req]. *)
Definition getCluster (req : jsval) (name : string)
    (_req : jsval) (endpoint : string) (params : jsval) : outcome jsval :=
  let client := if name =? "monitoring" then cluster else esDataClient in
  mbSafeQuery (fun _ => asScoped_callAsCurrentUser client req endpoint params).

Definition legacyRequest_of (req : jsval) : LegacyRequest :=
  {| request := req;
     payload := prop req "body";
     getCluster_callWithRequest := getCluster req |}.

(** The [handler] closure built by [route]: [try] the legacy handler,
    [catch] what it throws. *)
Definition handler (options_handler : LegacyRequest -> outcome jsval)
    (req : jsval) : outcome KibanaResponse :=
  match options_handler (legacyRequest_of req) with
  | Returned result => Returned (res_ok result)
  | Threw err => handler_catch err
  end.

(** *** Route registration *)

Record RouteOptions := {
  method : string;
  path : string;
  config : jsval;
  validate : jsval;
  options_handler : LegacyRequest -> outcome jsval;
}.

Inductive Verb := POST | GET | PUT.

Definition verb_name (v : Verb) : string :=
  match v with
  | POST => "POST"
  | GET => "GET"
  | PUT => "PUT"
  end.

(** One call [router.post(options, handler)], [router.get(...)] or
    [router.put(...)]. *)
Record Registration := {
  verb : Verb;
  registered_options : RouteOptions;
  registered_handler : jsval -> outcome KibanaResponse;
}.

Definition Router := list Registration.

(** [get(options, 'config.validate', false)]: the default stands in for an
    unresolved ([undefined]) value only. *)
Definition get_config_validate (options : RouteOptions) : jsval :=
  match opt_prop (config options) "validate" with
  | JUndefined => JBool false
  | v => v
  end.

(** The options after [validate.body = validate.payload] and
    [options.validate = validate].  [validate] is the very object held at
    [options.config.validate], so the new [body] shows there as well. *)
Definition with_validate (options : RouteOptions) : RouteOptions :=
  let validate := get_config_validate options in
  if truthy validate && truthy (prop validate "payload")
  then
    let validate' := set_prop validate "body" (prop validate "payload") in
    {| method := method options;
       path := path options;
       config := set_prop (config options) "validate" validate';
       validate := validate';
       options_handler := options_handler options |}
  else
    {| method := method options;
       path := path options;
       config := config options;
       validate := validate;
       options_handler := options_handler options |}.

(** What [router.post(options, handler)] and its siblings record. *)
Definition registration_of (v : Verb) (options : RouteOptions) : Registration :=
  {| verb := v;
     registered_options := with_validate options;
     registered_handler := handler (options_handler options) |}.

(** [route(options)]: the mutated options, and the router after the call
    unless the method is refused. *)
Definition route (options : RouteOptions) (router : Router)
  : RouteOptions * outcome Router :=
  let method := method options in
  (with_validate options,
   if method =? "POST" then Returned (router ++ [registration_of POST options])
   else if method =? "GET" then Returned (router ++ [registration_of GET options])
   else if method =? "PUT" then Returned (router ++ [registration_of PUT options])
   else Threw (new_Error ("Unsupport API method: " ++ method))).

End LegacyShim.

(** Stand-ins for the collaborators of the shim: a client that answers every
    call with its own name, and an [mbSafeQuery] that runs the query. *)
Definition named_client (name : string) : ClusterClient :=
  {| asScoped_callAsCurrentUser := fun _ _ _ => Returned (JStr name) |}.

Definition run_query (query : unit -> outcome jsval) : outcome jsval :=
  query tt.

(** ** The bulk uploader *)

Inductive SchedulerState := Stopped | Running.

Inductive BulkCall :=
| call_start (usageCollection : option string)
| call_handleNotEnabled.

(** Modelled from the spec: the bulk uploader ([initBulkUploader] of
    [./kibana_monitoring]) is not among the sources.  It is the scheduler of
    the specification: [Stopped] at first; [start] moves [Stopped] to
    [Running] and creates the periodic timer, and is a no-op when already
    [Running]; [handleNotEnabled] forces [Stopped] and cancels the timer.
    [calls] records the methods invoked on the object, oldest first;
    [active_timers] is the number of live periodic timers and
    [timers_started] the number ever created. *)
Record BulkUploader := {
  kibanaStats : KibanaStats;
  state : SchedulerState;
  active_timers : nat;
  timers_started : nat;
  calls : list BulkCall;
}.

Definition initBulkUploader (stats : KibanaStats) : BulkUploader :=
  {| kibanaStats := stats; state := Stopped; active_timers := 0;
     timers_started := 0; calls := [] |}.

Definition bulkUploader_start (usageCollection : option string)
    (b : BulkUploader) : BulkUploader :=
  match state b with
  | Running =>
      {| kibanaStats := kibanaStats b; state := Running;
         active_timers := active_timers b;
         timers_started := timers_started b;
         calls := calls b ++ [call_start usageCollection] |}
  | Stopped =>
      {| kibanaStats := kibanaStats b; state := Running;
         active_timers := S (active_timers b);
         timers_started := S (timers_started b);
         calls := calls b ++ [call_start usageCollection] |}
  end.

Definition bulkUploader_handleNotEnabled (b : BulkUploader) : BulkUploader :=
  {| kibanaStats := kibanaStats b; state := Stopped;
     active_timers := 0;
     timers_started := timers_started b;
     calls := calls b ++ [call_handleNotEnabled] |}.

(** ** Licenses *)

Record LicenseFeature := {
  isAvailable : bool;
  isEnabled : bool;
}.

(** [license.getFeature(name)], [undefined] for a feature the license does
    not know. *)
Record License := {
  getFeature : string -> option LicenseFeature;
}.

(** [mainMonitoring && mainMonitoring.isAvailable && mainMonitoring.isEnabled] *)
Definition monitoringBulkEnabled (license : License) : bool :=
  match getFeature license "monitoring" with
  | Some mainMonitoring => isAvailable mainMonitoring && isEnabled mainMonitoring
  | None => false
  end.

(** The callback given to [plugins.licensing.license$.subscribe]. *)
Definition license_subscriber (usageCollection : option string)
    (license : License) (bulkUploader : BulkUploader) : BulkUploader :=
  if monitoringBulkEnabled license
  then bulkUploader_start usageCollection bulkUploader
  else bulkUploader_handleNotEnabled bulkUploader.

(** The call an emission makes on the uploader. *)
Definition call_for (usageCollection : option string) (license : License)
  : BulkCall :=
  if monitoringBulkEnabled license then call_start usageCollection
  else call_handleNotEnabled.

(** At most one timer, and one exactly when running. *)
Definition one_timer_when_running (b : BulkUploader) : Prop :=
  match state b with
  | Running => active_timers b = 1
  | Stopped => active_timers b = 0
  end.

(** ** The plugin instance and its lifecycle *)

(** A field initialised as [{} as T]: an object without the methods of [T]
    until [setup] assigns the real one. *)
Inductive Slot (A : Type) :=
| EmptyObject
| Live (a : A).
Arguments EmptyObject {A}.
Arguments Live {A} a.

(** Both alternatives are objects, hence truthy. *)
Definition slot_truthy {A} (s : Slot A) : bool := true.

Record IClusterClient := { client_name : string }.
Record SavedObjectsServiceStart := { service_name : string }.
Record ILegacyCustomClusterClient := { cluster_name : string }.
Record MonitoringLicenseService := { license_service_name : string }.

Record Plugin := {
  cluster : Slot ILegacyCustomClusterClient;
  licenseService : Slot MonitoringLicenseService;
  telemetryElasticsearchClient : option IClusterClient;
  telemetrySavedObjectsService : option SavedObjectsServiceStart;
}.

(** The field initialisers of the class. *)
Definition new_Plugin : Plugin :=
  {| cluster := EmptyObject;
     licenseService := EmptyObject;
     telemetryElasticsearchClient := None;
     telemetrySavedObjectsService := None |}.

(** The argument of [registerMonitoringCollection].  The two getters are
    arrow functions over [this]: a call reads the field of the instance as it
    is at the time of the call. *)
Record MonitoringCollection := {
  esCluster : Slot ILegacyCustomClusterClient;
  esClientGetter : Plugin -> option IClusterClient;
  soServiceGetter : Plugin -> option SavedObjectsServiceStart;
  customContext_maxBucketSize : Z;
}.

Record MonitoringConfig := {
  ui_enabled : bool;
  ui_max_bucket_size : Z;
  kibana_collection_enabled : bool;
}.

(** The optional plugins [setup] looks at, each present or absent. *)
Record PluginsSetup := {
  licensing : option string;
  telemetryCollectionManager : option string;
  usageCollection : option string;
}.

Inductive LogLine :=
| log_warn (message : string)
| log_info (message : string).

(** What [setup] leaves behind: the instance, the bulk uploader it created,
    the callbacks subscribed to [license$], the lines written to
    [kibanaMonitoringLog] and the calls of [registerMonitoringCollection]. *)
Record Setup := {
  this : Plugin;
  bulkUploader : BulkUploader;
  license_subscriptions : list (License -> BulkUploader -> BulkUploader);
  kibanaMonitoringLog : list LogLine;
  monitoringCollections : list MonitoringCollection;
}.

Section SetupOf.

Variable packageInfo_version : string.
Variable config : MonitoringConfig.
Variable plugins : PluginsSetup.
(** The results of [instantiateClient] and [new LicenseService().setup]. *)
Variable instantiated : ILegacyCustomClusterClient.
Variable licenseServiceSetup : MonitoringLicenseService.

(** [// Initialize telemetry] *)
Definition setup_telemetry (this : Plugin) : list MonitoringCollection :=
  match telemetryCollectionManager plugins with
  | Some _ =>
      [{| esCluster := cluster this;
          esClientGetter := fun this => telemetryElasticsearchClient this;
          soServiceGetter := fun this => telemetrySavedObjectsService this;
          customContext_maxBucketSize := ui_max_bucket_size config |}]
  | None => []
  end.

(** [// If collection is enabled, start it]: the subscriptions made and
    the lines logged. *)
Definition setup_collection
  : list (License -> BulkUploader -> BulkUploader) * list LogLine :=
  if kibana_collection_enabled config then
    match licensing plugins with
    | Some _ => ([license_subscriber (usageCollection plugins)], [])
    | None =>
        ([], [log_warn "Internal collection for Kibana monitoring is disabled due to missing license information."])
    end
  else
    ([], [log_info "Internal collection for Kibana monitoring is disabled per configuration."]).

Definition setup (this : Plugin) : Setup :=
  let this :=
    {| cluster := Live instantiated;
       licenseService := Live licenseServiceSetup;
       telemetryElasticsearchClient := telemetryElasticsearchClient this;
       telemetrySavedObjectsService := telemetrySavedObjectsService this |} in
  {| this := this;
     bulkUploader := initBulkUploader (kibanaStats_of packageInfo_version);
     license_subscriptions := fst setup_collection;
     kibanaMonitoringLog := snd setup_collection;
     monitoringCollections := setup_telemetry this |}.

End SetupOf.

(** One emission of [license$]: every subscribed callback runs, in order of
    subscription. *)
Definition emit (license : License) (s : Setup) : Setup :=
  {| this := this s;
     bulkUploader :=
       fold_left (fun b callback => callback license b)
         (license_subscriptions s) (bulkUploader s);
     license_subscriptions := license_subscriptions s;
     kibanaMonitoringLog := kibanaMonitoringLog s;
     monitoringCollections := monitoringCollections s |}.

Definition observe (licenses : list License) (s : Setup) : Setup :=
  fold_left (fun s license => emit license s) licenses s.

Record CoreStart := {
  elasticsearch_client : IClusterClient;
  savedObjects : SavedObjectsServiceStart;
}.

(** [start({ elasticsearch, savedObjects })] *)
Definition start (core : CoreStart) (this : Plugin) : Plugin :=
  {| cluster := cluster this;
     licenseService := licenseService this;
     telemetryElasticsearchClient := Some (elasticsearch_client core);
     telemetrySavedObjectsService := Some (savedObjects core) |}.

Inductive Effect :=
| cluster_close
| licenseService_stop.

(** A method call on a slot: the empty object has no such method. *)
Definition call_method {A} (s : Slot A) (name : string) (e : Effect)
    (seen : list Effect) : outcome (list Effect) :=
  match s with
  | Live _ => Returned (seen ++ [e])
  | EmptyObject => Threw (new_TypeError (name ++ " is not a function"))
  end.

(** [stop()]: no field of the instance is assigned; [seen] collects the
    calls made on the cluster and on the license service. *)
Definition stop (this : Plugin) (seen : list Effect) : outcome (list Effect) :=
  seen <- (if slot_truthy (cluster this)
           then call_method (cluster this) "this.cluster.close" cluster_close seen
           else Returned seen) ;;
  if slot_truthy (licenseService this)
  then call_method (licenseService this) "this.licenseService.stop"
         licenseService_stop seen
  else Returned seen.

(** [n] calls of [stop()] in a row. *)
Fixpoint stop_times (n : nat) (this : Plugin) (seen : list Effect)
  : outcome (list Effect) :=
  match n with
  | O => Returned seen
  | S k => seen <- stop this seen ;; stop_times k this seen
  end.

Definition Effect_eqb (a b : Effect) : bool :=
  match a, b with
  | cluster_close, cluster_close => true
  | licenseService_stop, licenseService_stop => true
  | _, _ => false
  end.

(** How often a call was observed. *)
Definition observed (e : Effect) (seen : list Effect) : nat :=
  List.length (filter (Effect_eqb e) seen).


(** ** Further parts of the shim *)

(** [s.substring(0, s.indexOf(sep))], and all of [s] when [sep] does not
    occur: the text before the first occurrence. *)
Fixpoint before_first (sep s : string) : string :=
  if starts_with sep s then EmptyString
  else match s with
       | EmptyString => EmptyString
       | String c s' => String c (before_first sep s')
       end.

(** [getAlertsClient] and [getActionsClient] of the legacy request:
    [try { return plugins.alerts.getAlertsClientWithRequest(req); }
     catch (err) { return null; }], and the same over [plugins.actions]. *)
Definition getAlertsClient (getAlertsClientWithRequest : jsval -> outcome jsval)
    (req : jsval) : outcome jsval :=
  match getAlertsClientWithRequest req with
  | Returned client => Returned client
  | Threw err => Returned JNull
  end.

Definition getActionsClient (getActionsClientWithRequest : jsval -> outcome jsval)
    (req : jsval) : outcome jsval :=
  match getActionsClientWithRequest req with
  | Returned client => Returned client
  | Threw err => Returned JNull
  end.

(** * Properties *)

(** ** JavaScript values *)

Lemma strict_eq_num_iff (v : jsval) (n : Z) :
  strict_eq_num v n = true <-> v = JNum n.
Proof.
  destruct v; simpl; try (split; [discriminate | intros H; discriminate H]).
  rewrite Z.eqb_eq. split; [congruence | now injection 1].
Qed.

Lemma strict_eq_num_false_iff (v : jsval) (n : Z) :
  strict_eq_num v n = false <-> v <> JNum n.
Proof.
  rewrite <- strict_eq_num_iff. destruct (strict_eq_num v n); split;
    congruence.
Qed.

(** Only objects have properties. *)
Lemma prop_defined_inv (o : jsval) (k : string) :
  prop o k <> JUndefined -> exists cls fields, o = JObj cls fields.
Proof. destruct o; simpl; try congruence. eauto. Qed.

Lemma lookup_assign_same (k : string) (v : jsval) (fields : list (string * jsval)) :
  lookup k (assign k v fields) = Some v.
Proof.
  induction fields as [|[k' v'] rest IH]; simpl.
  - now rewrite String.eqb_refl.
  - destruct (k' =? k) eqn:E; simpl.
    + now rewrite String.eqb_refl.
    + now rewrite E.
Qed.

Lemma lookup_assign_other (k k' : string) (v : jsval)
    (fields : list (string * jsval)) :
  k' <> k -> lookup k' (assign k v fields) = lookup k' fields.
Proof.
  intros Hne. assert (Hk : (k =? k') = false) by (apply String.eqb_neq; congruence).
  induction fields as [|[k0 v0] rest IH]; simpl.
  - now rewrite Hk.
  - destruct (k0 =? k) eqn:E; simpl.
    + apply String.eqb_eq in E. subst k0. now rewrite Hk.
    + destruct (k0 =? k'); [reflexivity | exact IH].
Qed.

(** A truthy property belongs to an object. *)
Lemma truthy_prop_object (o : jsval) (k : string) :
  truthy (prop o k) = true -> exists cls fields, o = JObj cls fields.
Proof.
  intros H. apply (prop_defined_inv o k). intros E. now rewrite E in H.
Qed.

Lemma prop_set_prop_same (o : jsval) (k : string) (v : jsval) :
  (exists cls fields, o = JObj cls fields) -> prop (set_prop o k v) k = v.
Proof.
  intros (cls & fields & ->). simpl. now rewrite lookup_assign_same.
Qed.

Lemma prop_set_prop_other (o : jsval) (k k' : string) (v : jsval) :
  k' <> k -> prop (set_prop o k v) k' = prop o k'.
Proof.
  intros H. destruct o; try reflexivity. simpl.
  now rewrite lookup_assign_other.
Qed.


(** ** The snapshot flag *)

Lemma matches_here_i_spec (p s : string) :
  matches_here_i p s = true <->
  exists mid post, s = (mid ++ post)%string /\ fold_case mid = fold_case p.
Proof.
  revert s; induction p as [|a p IH]; intros s; simpl.
  - split; [intros _; exists "", s; auto | auto].
  - destruct s as [|b s].
    + split; [discriminate|].
      intros (mid & post & Hs & Hf).
      destruct mid; simpl in *; discriminate.
    + rewrite andb_true_iff, Ascii.eqb_eq, IH. split.
      * intros (Hc & mid & post & -> & Hf).
        exists (String b mid), post; simpl. now rewrite Hf, Hc.
      * intros (mid & post & Hs & Hf).
        destruct mid as [|c mid]; simpl in *; [discriminate|].
        injection Hs as <- ->. injection Hf as Hc Hf.
        split; [congruence | eauto].
Qed.

Lemma test_literal_i_spec (p s : string) :
  test_literal_i p s = true <-> contains_ignoring_case p s.
Proof.
  unfold contains_ignoring_case.
  induction s as [|c s IH].
  - cbn [test_literal_i]. rewrite orb_false_r, matches_here_i_spec. split.
    + intros (mid & post & Hs & Hf). now exists "", mid, post.
    + intros (pre & mid & post & Hs & Hf).
      destruct pre; simpl in Hs; [eauto | discriminate].
  - cbn [test_literal_i]. rewrite orb_true_iff, IH, matches_here_i_spec. split.
    + intros [(mid & post & Hs & Hf) | (pre & mid & post & Hs & Hf)].
      * now exists "", mid, post.
      * exists (String c pre), mid, post. simpl. now rewrite Hs.
    + intros (pre & mid & post & Hs & Hf).
      destruct pre as [|c' pre]; simpl in Hs.
      * left; eauto.
      * injection Hs as _ Hs. right; eauto.
Qed.


(** ** The legacy configuration wrapper *)

Lemma rev_string_twice (s a b : string) :
  rev_string a (rev_string b s) = rev_string (s ++ a)%string b.
Proof.
  revert b; induction s as [|c s IH]; intros b; simpl; [reflexivity|].
  now rewrite IH.
Qed.

Lemma append_empty_r (s : string) : (s ++ "")%string = s.
Proof. induction s; simpl; congruence. Qed.

Lemma starts_with_length (p s : string) :
  starts_with p s = true -> String.length p <= String.length s.
Proof.
  revert s; induction p as [|a p IH]; intros [|b s]; simpl; try lia; try discriminate.
  rewrite andb_true_iff. intros [_ H]. apply IH in H. lia.
Qed.

(** Without an occurrence of the separator there is one segment. *)
Lemma split_scan_no_separator (sep cur s : string) :
  includes sep s = false ->
  split_scan sep 0 cur s = [rev_string "" (rev_string cur s)].
Proof.
  revert cur; induction s as [|c s IH]; intros cur H; [reflexivity|].
  cbn [includes] in H. apply orb_false_iff in H as [Hp Hi].
  cbn [split_scan]. rewrite Hp. cbn [rev_string]. now apply IH.
Qed.

(** Passing over the rest of an occurrence. *)
Lemma split_scan_skip (sep cur s : string) (k : nat) :
  k <= String.length s ->
  split_scan sep k cur s = split_scan sep 0 cur (drop k s).
Proof.
  revert k; induction s as [|c s IH]; intros [|k] H; simpl in *;
    try reflexivity; try lia.
  apply IH. lia.
Qed.

Lemma drop_tail (n : nat) (c : ascii) (s : string) :
  0 < n -> drop (n - 1) s = drop n (String c s).
Proof. destruct n; [lia|]. simpl. now rewrite Nat.sub_0_r. Qed.

(** With a single occurrence, the second segment is all that follows it. *)
Lemma split_scan_second (sep cur s d : string) :
  0 < String.length sep ->
  includes sep s = true ->
  includes sep (after_first sep s) = false ->
  nth 1 (split_scan sep 0 cur s) d = after_first sep s.
Proof.
  intros Hsep. revert cur; induction s as [|c s IH]; intros cur Hin Hno.
  - destruct sep; simpl in *; [lia | discriminate].
  - cbn [split_scan]. cbn [after_first] in Hno |- *.
    cbn [includes] in Hin.
    destruct (starts_with sep (String c s)) eqn:Hp.
    + pose proof (starts_with_length _ _ Hp) as Hlen. simpl in Hlen.
      rewrite <- (drop_tail _ c) in * by assumption.
      cbn [nth]. rewrite split_scan_skip by lia.
      rewrite split_scan_no_separator by assumption.
      cbn [nth]. now rewrite rev_string_twice, append_empty_r.
    + simpl in Hin. now apply IH.
Qed.

Lemma split_scan_nonempty (sep cur s : string) (skip : nat) :
  1 <= List.length (split_scan sep skip cur s).
Proof.
  revert skip cur; induction s as [|c s IH]; intros skip cur; simpl; [lia|].
  destruct skip; [|apply IH].
  destruct (starts_with sep (String c s)); [simpl; lia | apply IH].
Qed.

(** A key that includes the separator has a segment of index 1, so
    [split(...)[1]] is never [undefined] where the wrapper reads it. *)
Lemma split_has_second (sep s : string) :
  0 < String.length sep ->
  includes sep s = true -> 2 <= List.length (split sep s).
Proof.
  intros Hsep. unfold split. generalize "" as cur.
  induction s as [|c s IH]; intros cur H.
  - destruct sep; simpl in *; [lia | discriminate H].
  - cbn [includes] in H. cbn [split_scan].
    destruct (starts_with sep (String c s)) eqn:Hp.
    + pose proof (split_scan_nonempty sep "" s (String.length sep - 1)).
      simpl. lia.
    + simpl in H. now apply IH.
Qed.

(** Keys with one [monitoring.] are stripped as the specification says. *)
Lemma legacy_key_single_occurrence (k : string) :
  includes "monitoring." (stripped_key k) = false ->
  legacy_key k = stripped_key k.
Proof.
  unfold legacy_key, stripped_key.
  destruct (includes "monitoring." k) eqn:Hin; [|reflexivity].
  intros Hno. apply split_scan_second; [simpl; lia | assumption | assumption].
Qed.

Lemma legacyConfigWrapper_get_single_occurrence
    (config legacyConfig : ConfigObject) (instanceUuid k : string) :
  includes "monitoring." (stripped_key k) = false ->
  legacyConfigWrapper_get config legacyConfig instanceUuid k
  = config_get_spec config legacyConfig instanceUuid k.
Proof.
  intros H. unfold legacyConfigWrapper_get, config_get_spec.
  now rewrite (legacy_key_single_occurrence k H).
Qed.

Lemma starts_with_app (p a b : string) :
  starts_with p a = true -> starts_with p (a ++ b)%string = true.
Proof.
  revert a; induction p as [|x p IH]; intros [|y a]; simpl; try easy.
  rewrite !andb_true_iff. intros [-> H]. auto.
Qed.

Lemma before_first_prefix (sep s : string) :
  exists rest, s = (before_first sep s ++ rest)%string.
Proof.
  induction s as [|c s [rest IH]]; simpl.
  - destruct (starts_with sep ""); now exists "".
  - destruct (starts_with sep (String c s)).
    + now exists (String c s).
    + exists rest. simpl. now rewrite <- IH.
Qed.

(** The text before the first occurrence holds no occurrence. *)
Lemma before_first_free (sep s : string) :
  0 < String.length sep -> includes sep (before_first sep s) = false.
Proof.
  intros Hsep. induction s as [|c s IH].
  - simpl. destruct sep; simpl in *; [lia | reflexivity].
  - cbn [before_first]. destruct (starts_with sep (String c s)) eqn:Hp.
    + destruct sep; simpl in *; [lia | reflexivity].
    + cbn [includes]. rewrite IH, orb_false_r.
      destruct (starts_with sep (String c (before_first sep s))) eqn:Hq;
        [|reflexivity].
      destruct (before_first_prefix sep s) as [rest Hrest].
      apply (starts_with_app _ _ rest) in Hq.
      simpl in Hq. rewrite <- Hrest in Hq. congruence.
Qed.

Lemma before_first_absent (sep s : string) :
  includes sep s = false -> before_first sep s = s.
Proof.
  induction s as [|c s IH]; cbn [includes before_first]; intros H.
  - now destruct (starts_with sep "").
  - apply orb_false_iff in H as [-> H]. now rewrite IH.
Qed.

(** The first segment of a split is the text before the first occurrence,
    after what was already collected. *)
Lemma split_scan_head (sep cur s d : string) :
  nth 0 (split_scan sep 0 cur s) d
  = rev_string "" (rev_string cur (before_first sep s)).
Proof.
  revert cur; induction s as [|c s IH]; intros cur.
  - simpl. now destruct (starts_with sep "").
  - cbn [split_scan before_first].
    destruct (starts_with sep (String c s)); [reflexivity|].
    cbn [rev_string]. apply IH.
Qed.

Lemma split_scan_second_segment (sep cur s d : string) :
  0 < String.length sep ->
  includes sep s = true ->
  nth 1 (split_scan sep 0 cur s) d = before_first sep (after_first sep s).
Proof.
  intros Hsep. revert cur; induction s as [|c s IH]; intros cur Hin.
  - destruct sep; simpl in *; [lia | discriminate].
  - cbn [split_scan after_first]. cbn [includes] in Hin.
    destruct (starts_with sep (String c s)) eqn:Hp.
    + pose proof (starts_with_length _ _ Hp) as Hlen. simpl in Hlen.
      rewrite <- (drop_tail _ c) by assumption.
      cbn [nth]. rewrite split_scan_skip by lia.
      now rewrite split_scan_head, rev_string_twice, append_empty_r.
    + simpl in Hin. now apply IH.
Qed.

Lemma legacy_key_between_occurrences_form (k : string) :
  legacy_key k
  = if includes "monitoring." k
    then before_first "monitoring." (after_first "monitoring." k)
    else k.
Proof.
  unfold legacy_key. destruct (includes "monitoring." k) eqn:Hin;
    [|reflexivity].
  apply split_scan_second_segment; [simpl; lia | exact Hin].
Qed.




(** ** The catch block of the route handler *)

(** An object of a given class. *)
Lemma set_prop_object (cls : jsclass) (o : jsval) (k : string) (v : jsval) :
  (exists fields, o = JObj cls fields) ->
  exists fields, set_prop o k v = JObj cls fields.
Proof. intros [fields ->]. simpl. eauto. Qed.

Lemma with_data_object (cls : jsclass) (o : jsval) :
  (exists fields, o = JObj cls fields) ->
  exists fields, Boom.with_data o = JObj cls fields.
Proof.
  intros [fields ->]. unfold Boom.with_data.
  destruct (lookup "data" fields); [eauto|].
  apply set_prop_object. eauto.
Qed.

Lemma with_data_other (o : jsval) (k : string) :
  k <> "data" -> prop (Boom.with_data o) k = prop o k.
Proof.
  intros H. unfold Boom.with_data. destruct o; try reflexivity.
  destruct (lookup "data" fields); [reflexivity|].
  now apply prop_set_prop_other.
Qed.

Lemma with_message_object (cls : jsclass) (o : jsval) (code : Z) :
  (exists fields, o = JObj cls fields) ->
  exists fields, Boom.with_message o code = JObj cls fields.
Proof.
  intros H. unfold Boom.with_message.
  destruct (truthy (prop o "message")); [exact H|].
  now apply set_prop_object.
Qed.

Lemma with_message_other (o : jsval) (code : Z) (k : string) :
  k <> "message" -> prop (Boom.with_message o code) k = prop o k.
Proof.
  intros H. unfold Boom.with_message.
  destruct (truthy (prop o "message")); [reflexivity|].
  now apply prop_set_prop_other.
Qed.

Lemma with_message_message (cls : jsclass) (o : jsval) (code : Z) :
  (exists fields, o = JObj cls fields) ->
  prop (Boom.with_message o code) "message"
  = if truthy (prop o "message") then prop o "message"
    else JStr (Boom.status_text code).
Proof.
  intros (fields & Ho). unfold Boom.with_message.
  destruct (truthy (prop o "message")); [reflexivity|].
  apply prop_set_prop_same. eauto.
Qed.

(** What decoration leaves on an error object: it keeps its class, it is a
    Boom error, its message is kept unless it had none, and its payload
    carries the fixed sentence for status 500 and the message otherwise. *)
Lemma decorate_object (cls : jsclass) (err : jsval) (code : Z) :
  (exists fields, err = JObj cls fields) ->
  let decorated := Boom.decorate err code in
  let message :=
    if truthy (prop err "message") then prop err "message"
    else JStr (Boom.status_text code) in
  (exists fields, decorated = JObj cls fields)
  /\ prop decorated "isBoom" = JBool true
  /\ prop decorated "message" = message
  /\ prop (prop decorated "output") "statusCode" = JNum code
  /\ prop (prop decorated "output") "headers" = JObj PlainObject []
  /\ prop (prop (prop decorated "output") "payload") "statusCode" = JNum code
  /\ prop (prop (prop decorated "output") "payload") "message"
     = if (code =? 500)%Z then JStr Boom.internal_message else message.
Proof.
  intros Hobj decorated message. subst decorated. unfold Boom.decorate.
  set (e1 := set_prop (set_prop err "isBoom" (JBool true)) "isServer"
               (JBool (500 <=? code)%Z)).
  set (e2 := Boom.with_message (Boom.with_data e1) code).
  assert (H1 : exists fields, e1 = JObj cls fields)
    by (subst e1; do 2 apply set_prop_object; exact Hobj).
  assert (H2 : exists fields, e2 = JObj cls fields)
    by (subst e2; apply with_message_object, with_data_object; exact H1).
  assert (Hm1 : prop (Boom.with_data e1) "message" = prop err "message").
  { rewrite with_data_other by discriminate. subst e1.
    now rewrite !prop_set_prop_other by discriminate. }
  assert (Hm2 : prop e2 "message" = message).
  { subst e2 message.
    rewrite (with_message_message cls) by (apply with_data_object; exact H1).
    now rewrite Hm1. }
  assert (Hb : prop e2 "isBoom" = JBool true).
  { subst e2. rewrite with_message_other, with_data_other by discriminate.
    subst e1. rewrite prop_set_prop_other by discriminate.
    apply prop_set_prop_same. destruct Hobj as [f ->]. eauto. }
  assert (Hout : prop (set_prop e2 "output" (Boom.output_for e2 code)) "output"
                 = Boom.output_for e2 code).
  { apply prop_set_prop_same. destruct H2 as [f ->]. eauto. }
  split; [apply set_prop_object; exact H2|].
  split; [now rewrite prop_set_prop_other by discriminate|].
  split; [now rewrite prop_set_prop_other by discriminate|].
  rewrite Hout. unfold Boom.output_for. cbn.
  repeat split. now rewrite Hm2.
Qed.

(** The code [wrapError] asks for: the error's own [statusCode], 500 when
    it is [null] or [undefined], and 500 again when it is falsy. *)
Lemma wrapError_code_500 (err : jsval) :
  nullish (prop err "statusCode") = true \/ prop err "statusCode" = JNum 500 ->
  parseInt (or_else (coalesce (prop err "statusCode") (JNum 500)) (JNum 500))
  = Some 500%Z.
Proof.
  unfold coalesce, or_else. intros [H | ->]; [rewrite H|]; reflexivity.
Qed.


Lemma error_statusCode_nullish (err : jsval) :
  nullish err = true -> error_statusCode err = JNum 500.
Proof. destruct err; try discriminate; reflexivity. Qed.

Lemma isBoom_not_nullish (err : jsval) :
  Boom.isBoom err = true -> nullish err = false.
Proof. destruct err; try discriminate; reflexivity. Qed.

Lemma error_instance_object (err : jsval) :
  is_error_instance err = true -> exists fields, err = JObj ErrorInstance fields.
Proof. destruct err as [| | | | |[] fields]; try discriminate. eauto. Qed.

(** The catch block on an [Error] that is not a Boom error and whose status
    is 500, once [Boom.boomify] accepts the code [wrapError] asks for. *)
Lemma handler_catch_wraps (err : jsval) (code : Z) :
  is_error_instance err = true ->
  Boom.isBoom err = false ->
  error_statusCode err = JNum 500 ->
  parseInt (or_else (coalesce (prop err "statusCode") (JNum 500)) (JNum 500))
  = Some code ->
  (400 <= code)%Z ->
  handler_catch err
  = Returned (res_internalError
                {| body := Boom.decorate err code;
                   headers := JObj PlainObject [];
                   statusCode := JNum code |}).
Proof.
  intros He Hb Hs Hp Hc.
  destruct (error_instance_object err He) as [fields Hobj].
  destruct (decorate_object ErrorInstance err code (ex_intro _ fields Hobj))
    as (_ & _ & _ & Hcode & Hheaders & _).
  assert (Hn : nullish err = false) by (rewrite Hobj; reflexivity).
  apply Z.leb_le in Hc.
  unfold handler_catch, wrapError, Boom.boomify.
  rewrite Hn, Hs, Hb, He, Hp, Hc. cbn [negb orb strict_eq_num Z.eqb bind].
  rewrite Pos.eqb_refl. cbn [negb bind]. now rewrite Hcode, Hheaders.
Qed.



(** ** Cluster callers, route registration *)

(** C3 as the specification words it fails on a name that is neither
    cluster's: the call does not throw, it is answered by the data cluster. *)
Lemma getCluster_unknown_name_reaches_data_cluster :
  let call :=
    getCluster run_query (named_client "monitoring") (named_client "data")
      (JObj PlainObject []) "no-such-cluster" JUndefined "search" JNull in
  call = Returned (JStr "data") /\ ~ (exists e, call = Threw e).
Proof.
  split; [reflexivity|]. intros [e H]. discriminate H.
Qed.

(** C3 (amended): the caller of [getCluster(name)] goes to the monitoring
    cluster when the name is [monitoring] and to the data cluster for every
    other name, recognised or not; the name never makes it fail, and the
    request used is the one being handled, not the caller's argument. *)
Theorem getCluster_routes_by_name
    (mbSafeQuery : (unit -> outcome jsval) -> outcome jsval)
    (cluster esDataClient : ClusterClient)
    (req : jsval) (name : string) (_req : jsval) (endpoint : string)
    (params : jsval) :
  getCluster mbSafeQuery cluster esDataClient req name _req endpoint params
  = mbSafeQuery (fun _ =>
      asScoped_callAsCurrentUser
        (if name =? "monitoring" then cluster else esDataClient)
        req endpoint params)
  /\ (name = "monitoring" ->
      getCluster mbSafeQuery cluster esDataClient req name _req endpoint params
      = mbSafeQuery (fun _ =>
          asScoped_callAsCurrentUser cluster req endpoint params))
  /\ (name <> "monitoring" ->
      getCluster mbSafeQuery cluster esDataClient req name _req endpoint params
      = mbSafeQuery (fun _ =>
          asScoped_callAsCurrentUser esDataClient req endpoint params)).
Proof.
  unfold getCluster. split; [reflexivity|]. split.
  - intros ->. reflexivity.
  - intros H. apply String.eqb_neq in H. now rewrite H.
Qed.

Lemma getCluster_routes_by_name_witness :
  getCluster run_query (named_client "monitoring") (named_client "data")
    (JObj PlainObject []) "monitoring" JUndefined "search" JNull
  = Returned (JStr "monitoring")
  /\ getCluster run_query (named_client "monitoring") (named_client "data")
       (JObj PlainObject []) "data" JUndefined "search" JNull
     = Returned (JStr "data").
Proof.
  split.
  - destruct (getCluster_routes_by_name run_query (named_client "monitoring")
                (named_client "data") (JObj PlainObject []) "monitoring"
                JUndefined "search" JNull) as (_ & H & _).
    rewrite H; reflexivity.
  - destruct (getCluster_routes_by_name run_query (named_client "monitoring")
                (named_client "data") (JObj PlainObject []) "data"
                JUndefined "search" JNull) as (_ & _ & H).
    rewrite H; [reflexivity | discriminate].
Defined.

(** C4: a route whose method is [GET], [POST] or [PUT] is recorded on the
    router method of that name; any other method makes [route] itself throw
    the unsupported-method error, so nothing is registered and no handler
    exists to serve a request; [DELETE] is such a method. *)
Theorem route_dispatches_on_method
    (mbSafeQuery : (unit -> outcome jsval) -> outcome jsval)
    (cluster esDataClient : ClusterClient)
    (options : RouteOptions) (router : Router) :
  (forall v, method options = verb_name v ->
     snd (route mbSafeQuery cluster esDataClient options router)
     = Returned
         (router ++ [registration_of mbSafeQuery cluster esDataClient v options]))
  /\ (method options <> "GET" -> method options <> "POST" ->
      method options <> "PUT" ->
      snd (route mbSafeQuery cluster esDataClient options router)
      = Threw (new_Error ("Unsupport API method: " ++ method options)))
  /\ (method options = "DELETE" ->
      snd (route mbSafeQuery cluster esDataClient options router)
      = Threw (new_Error "Unsupport API method: DELETE")).
Proof.
  unfold route; cbn [snd]. split; [|split].
  - intros v ->. destruct v; reflexivity.
  - intros H1 H2 H3. apply String.eqb_neq in H1, H2, H3.
    now rewrite H1, H2, H3.
  - intros ->. reflexivity.
Qed.

Lemma route_dispatches_on_method_witness :
  let options := {| method := "DELETE"; path := "/api/monitoring/v1/clusters";
                    config := JObj PlainObject []; validate := JUndefined;
                    options_handler := fun _ => Returned JNull |} in
  snd (route run_query (named_client "monitoring") (named_client "data")
         options [])
  = Threw (new_Error "Unsupport API method: DELETE")
  /\ snd (route run_query (named_client "monitoring") (named_client "data")
            {| method := "GET"; path := path options; config := config options;
               validate := validate options;
               options_handler := options_handler options |} [])
     = Returned
         [registration_of run_query (named_client "monitoring")
            (named_client "data") GET
            {| method := "GET"; path := path options; config := config options;
               validate := validate options;
               options_handler := options_handler options |}].
Proof.
  intros options. split.
  - apply (route_dispatches_on_method run_query (named_client "monitoring")
             (named_client "data") options []). reflexivity.
  - apply (route_dispatches_on_method run_query (named_client "monitoring")
             (named_client "data")
             {| method := "GET"; path := path options; config := config options;
                validate := validate options;
                options_handler := options_handler options |} [] ). reflexivity.
Defined.

(** C10: [route] reads the validation from [options.config.validate], with
    [false] for an absent one; a truthy value with a truthy [payload] gets
    that payload as its [body] too; the result is [options.validate] of the
    options the router receives.  A route without [config.validate] is thus
    registered with [validate: false], and a payload validator is always
    found again under [body]. *)
Theorem route_sets_validate
    (mbSafeQuery : (unit -> outcome jsval) -> outcome jsval)
    (cluster esDataClient : ClusterClient)
    (options : RouteOptions) (router : Router) :
  let declared := opt_prop (config options) "validate" in
  let options' := fst (route mbSafeQuery cluster esDataClient options router) in
  (declared = JUndefined -> validate options' = JBool false)
  /\ (declared <> JUndefined ->
      truthy declared && truthy (prop declared "payload") = false ->
      validate options' = declared)
  /\ (truthy declared = true -> truthy (prop declared "payload") = true ->
      validate options' = set_prop declared "body" (prop declared "payload")
      /\ prop (validate options') "body" = prop declared "payload"
      /\ prop (validate options') "payload" = prop declared "payload")
  /\ (forall v, method options = verb_name v ->
      exists r,
        snd (route mbSafeQuery cluster esDataClient options router)
        = Returned (router ++ [r])
        /\ verb r = v /\ registered_options r = options').
Proof.
  intros declared options'. subst options'. unfold route; cbn [fst snd].
  assert (Hget : declared <> JUndefined ->
                 get_config_validate options = declared).
  { unfold get_config_validate. fold declared.
    destruct declared; congruence. }
  split; [|split; [|split]].
  - intros H. unfold with_validate, get_config_validate. fold declared.
    rewrite H. reflexivity.
  - intros Hd Hf. unfold with_validate. rewrite (Hget Hd), Hf. reflexivity.
  - intros Ht Hp.
    assert (Hd : declared <> JUndefined) by (intros E; now rewrite E in Ht).
    unfold with_validate. rewrite (Hget Hd), Ht, Hp. cbn [andb validate].
    split; [reflexivity|]. split.
    + apply prop_set_prop_same. eapply truthy_prop_object; eassumption.
    + apply prop_set_prop_other. discriminate.
  - intros v Hm. exists (registration_of mbSafeQuery cluster esDataClient v options).
    split; [|split; reflexivity].
    rewrite Hm. destruct v; reflexivity.
Qed.

Lemma route_sets_validate_witness :
  let declared :=
    JObj PlainObject [("payload", JStr "Joi.object({ ccs: Joi.string() })")] in
  let options := {| method := "POST"; path := "/api/monitoring/v1/clusters";
                    config := JObj PlainObject [("validate", declared)];
                    validate := JUndefined;
                    options_handler := fun _ => Returned JNull |} in
  prop (validate (fst (route run_query (named_client "monitoring")
                         (named_client "data") options [])))
    "body" = JStr "Joi.object({ ccs: Joi.string() })".
Proof.
  intros declared options.
  destruct (route_sets_validate run_query (named_client "monitoring")
              (named_client "data") options []) as (_ & _ & H & _).
  destruct H as (_ & H & _); [reflexivity | reflexivity |].
  exact H.
Defined.

(** ** Lifecycle: [stop], [start] and the telemetry getters *)

Lemma observed_app (e : Effect) (xs ys : list Effect) :
  observed e (xs ++ ys) = observed e xs + observed e ys.
Proof. unfold observed. now rewrite filter_app, length_app. Qed.

Lemma stop_after_setup (this : Plugin) (seen : list Effect)
    (c : ILegacyCustomClusterClient) (l : MonitoringLicenseService) :
  cluster this = Live c -> licenseService this = Live l ->
  stop this seen = Returned (seen ++ [cluster_close; licenseService_stop]).
Proof.
  intros Hc Hl. unfold stop. rewrite Hc, Hl. simpl.
  now rewrite <- app_assoc.
Qed.

Lemma stop_times_after_setup (n : nat) (this : Plugin) (seen : list Effect)
    (c : ILegacyCustomClusterClient) (l : MonitoringLicenseService) :
  cluster this = Live c -> licenseService this = Live l ->
  exists seen',
    stop_times n this seen = Returned seen'
    /\ observed cluster_close seen' = observed cluster_close seen + n
    /\ observed licenseService_stop seen'
       = observed licenseService_stop seen + n.
Proof.
  intros Hc Hl. revert seen; induction n as [|n IH]; intros seen.
  - exists seen. simpl. split; [reflexivity | split; lia].
  - simpl. rewrite (stop_after_setup this seen c l Hc Hl). simpl.
    destruct (IH (seen ++ [cluster_close; licenseService_stop]))
      as (seen' & Hrun & Hclose & Hstop).
    exists seen'. split; [exact Hrun|].
    rewrite Hclose, Hstop, !observed_app.
    change (observed cluster_close [cluster_close; licenseService_stop]) with 1.
    change (observed licenseService_stop [cluster_close; licenseService_stop])
      with 1.
    split; lia.
Qed.

(** C5 as the specification words it fails: two calls of [stop()] on
    a plugin that was set up close the cluster twice. *)
Lemma stop_twice_closes_twice :
  let plugin :=
    this (setup "7.10.0"
            {| ui_enabled := true; ui_max_bucket_size := 10000;
               kibana_collection_enabled := true |}
            {| licensing := None; telemetryCollectionManager := None;
               usageCollection := None |}
            {| cluster_name := "monitoring" |}
            {| license_service_name := "license" |} new_Plugin) in
  stop_times 2 plugin []
  = Returned [cluster_close; licenseService_stop;
              cluster_close; licenseService_stop]
  /\ ~ (exists seen, stop_times 2 plugin [] = Returned seen
                     /\ observed cluster_close seen = 1).
Proof.
  split; [reflexivity|].
  intros (seen & H & Hone). vm_compute in H. injection H as <-.
  vm_compute in Hone. discriminate Hone.
Qed.

(** C5 (amended): on a plugin that was set up, every call of [stop()] calls
    [close()] on the cluster and [stop()] on the license service; the plugin
    keeps no record of having stopped, so after [n] calls [close()] has been
    observed [n] times, and so has the stop of the license service. *)
Theorem stop_closes_on_every_call
    (packageInfo_version : string) (config : MonitoringConfig)
    (plugins : PluginsSetup) (instantiated : ILegacyCustomClusterClient)
    (licenseServiceSetup : MonitoringLicenseService) (fresh : Plugin)
    (n : nat) :
  let plugin := this (setup packageInfo_version config plugins instantiated
                        licenseServiceSetup fresh) in
  exists seen,
    stop_times n plugin [] = Returned seen
    /\ observed cluster_close seen = n
    /\ observed licenseService_stop seen = n.
Proof.
  intros plugin.
  destruct (stop_times_after_setup n plugin [] instantiated licenseServiceSetup)
    as (seen & H & Hc & Hs); try reflexivity.
  exists seen. auto.
Qed.

(** C8: when a telemetry collection manager is present, [setup] registers
    one collection whose client and service are given as getters.  A getter
    returns the field of the instance as it is when called: nothing before
    [start()], and after [start()] what [start()] stored, for the very same
    getter. *)
Theorem telemetry_getters_read_at_call_time
    (packageInfo_version : string) (config : MonitoringConfig)
    (plugins : PluginsSetup) (instantiated : ILegacyCustomClusterClient)
    (licenseServiceSetup : MonitoringLicenseService) :
  let s := setup packageInfo_version config plugins instantiated
             licenseServiceSetup new_Plugin in
  (telemetryCollectionManager plugins <> None ->
   exists c, monitoringCollections s = [c])
  /\ (forall c, In c (monitoringCollections s) ->
      (forall plugin,
          esClientGetter c plugin = telemetryElasticsearchClient plugin
          /\ soServiceGetter c plugin = telemetrySavedObjectsService plugin)
      /\ esClientGetter c (this s) = None
      /\ soServiceGetter c (this s) = None
      /\ (forall core,
            esClientGetter c (start core (this s))
            = Some (elasticsearch_client core)
            /\ soServiceGetter c (start core (this s))
               = Some (savedObjects core))).
Proof.
  intros s. subst s. unfold setup; cbn [monitoringCollections this].
  unfold setup_telemetry.
  destruct (telemetryCollectionManager plugins) as [m|].
  - split; [eauto|]. intros c [<- | []]. simpl. auto.
  - split; [congruence|]. intros c [].
Qed.

Lemma telemetry_getters_read_at_call_time_witness :
  let s := setup "7.10.0"
             {| ui_enabled := true; ui_max_bucket_size := 10000;
                kibana_collection_enabled := true |}
             {| licensing := None;
                telemetryCollectionManager := Some "telemetryCollectionManager";
                usageCollection := None |}
             {| cluster_name := "monitoring" |}
             {| license_service_name := "license" |} new_Plugin in
  let core := {| elasticsearch_client := {| client_name := "core" |};
                 savedObjects := {| service_name := "savedObjects" |} |} in
  exists c, monitoringCollections s = [c]
            /\ esClientGetter c (this s) = None
            /\ esClientGetter c (start core (this s))
               = Some {| client_name := "core" |}.
Proof.
  intros s core.
  destruct (telemetry_getters_read_at_call_time "7.10.0"
              {| ui_enabled := true; ui_max_bucket_size := 10000;
                 kibana_collection_enabled := true |}
              {| licensing := None;
                 telemetryCollectionManager := Some "telemetryCollectionManager";
                 usageCollection := None |}
              {| cluster_name := "monitoring" |}
              {| license_service_name := "license" |}) as [Hreg Hget].
  destruct Hreg as [c Hc]; [discriminate|].
  exists c. split; [exact Hc|].
  destruct (Hget c) as (_ & Hbefore & _ & Hafter).
  - cbv zeta in Hc |- *. rewrite Hc. left. reflexivity.
  - split; [exact Hbefore | exact (proj1 (Hafter core))].
Defined.

(** ** License emissions and the bulk uploader *)

Lemma observe_app (xs ys : list License) (s : Setup) :
  observe (xs ++ ys) s = observe ys (observe xs s).
Proof. unfold observe. apply fold_left_app. Qed.

Lemma observe_subscriptions (licenses : list License) (s : Setup) :
  license_subscriptions (observe licenses s) = license_subscriptions s.
Proof.
  revert s; induction licenses as [|l ls IH]; intros s; [reflexivity|].
  simpl. now rewrite IH.
Qed.

(** No subscription: emissions never reach the uploader. *)
Lemma observe_unsubscribed (licenses : list License) (s : Setup) :
  license_subscriptions s = [] ->
  bulkUploader (observe licenses s) = bulkUploader s.
Proof.
  revert s; induction licenses as [|l ls IH]; intros s H; [reflexivity|].
  simpl. rewrite IH by exact H. simpl. now rewrite H.
Qed.

(** One subscription: every emission is one call of the callback. *)
Lemma observe_subscribed (licenses : list License) (s : Setup)
    (callback : License -> BulkUploader -> BulkUploader) :
  license_subscriptions s = [callback] ->
  bulkUploader (observe licenses s)
  = fold_left (fun b license => callback license b) licenses (bulkUploader s).
Proof.
  revert s; induction licenses as [|l ls IH]; intros s H; [reflexivity|].
  simpl. rewrite IH by exact H. simpl. now rewrite H.
Qed.

Lemma monitoringBulkEnabled_iff (license : License) :
  monitoringBulkEnabled license = true <->
  exists feature,
    getFeature license "monitoring" = Some feature
    /\ isAvailable feature = true /\ isEnabled feature = true.
Proof.
  unfold monitoringBulkEnabled.
  destruct (getFeature license "monitoring") as [f|].
  - rewrite andb_true_iff. split.
    + intros [Ha He]. eauto.
    + intros (f' & E & Ha & He). injection E as ->. auto.
  - split; [discriminate | intros (f' & E & _); discriminate E].
Qed.

Lemma license_subscriber_state (uc : option string) (license : License)
    (b : BulkUploader) :
  state (license_subscriber uc license b)
  = if monitoringBulkEnabled license then Running else Stopped.
Proof.
  unfold license_subscriber, bulkUploader_start.
  destruct (monitoringBulkEnabled license), (state b); reflexivity.
Qed.

Lemma license_subscriber_calls (uc : option string) (license : License)
    (b : BulkUploader) :
  calls (license_subscriber uc license b) = calls b ++ [call_for uc license].
Proof.
  unfold license_subscriber, call_for, bulkUploader_start.
  destruct (monitoringBulkEnabled license), (state b); reflexivity.
Qed.

Lemma license_subscriber_one_timer (uc : option string) (license : License)
    (b : BulkUploader) :
  one_timer_when_running b ->
  one_timer_when_running (license_subscriber uc license b).
Proof.
  unfold one_timer_when_running, license_subscriber, bulkUploader_start.
  destruct (monitoringBulkEnabled license), (state b); simpl; congruence.
Qed.

Lemma fold_subscriber_calls (uc : option string) (licenses : list License)
    (b : BulkUploader) :
  calls (fold_left (fun b license => license_subscriber uc license b) licenses b)
  = calls b ++ map (call_for uc) licenses.
Proof.
  revert b; induction licenses as [|l ls IH]; intros b; simpl.
  - now rewrite app_nil_r.
  - now rewrite IH, license_subscriber_calls, <- app_assoc.
Qed.

Lemma fold_subscriber_one_timer (uc : option string) (licenses : list License)
    (b : BulkUploader) :
  one_timer_when_running b ->
  one_timer_when_running
    (fold_left (fun b license => license_subscriber uc license b) licenses b).
Proof.
  revert b; induction licenses as [|l ls IH]; intros b H; simpl; [exact H|].
  apply IH. now apply license_subscriber_one_timer.
Qed.

(** C9: with collection enabled but no licensing plugin, [setup] logs the
    warning and subscribes to nothing, so whatever licenses are emitted the
    uploader is never called and stays stopped; with collection disabled it
    logs the informational line and subscribes to nothing either. *)
Theorem collection_needs_license_information
    (packageInfo_version : string) (config : MonitoringConfig)
    (plugins : PluginsSetup) (instantiated : ILegacyCustomClusterClient)
    (licenseServiceSetup : MonitoringLicenseService) (fresh : Plugin) :
  let s := setup packageInfo_version config plugins instantiated
             licenseServiceSetup fresh in
  (kibana_collection_enabled config = true -> licensing plugins = None ->
   kibanaMonitoringLog s
   = [log_warn "Internal collection for Kibana monitoring is disabled due to missing license information."]
   /\ license_subscriptions s = []
   /\ forall licenses,
        calls (bulkUploader (observe licenses s)) = []
        /\ state (bulkUploader (observe licenses s)) = Stopped)
  /\ (kibana_collection_enabled config = false ->
      kibanaMonitoringLog s
      = [log_info "Internal collection for Kibana monitoring is disabled per configuration."]
      /\ license_subscriptions s = []
      /\ forall licenses, calls (bulkUploader (observe licenses s)) = []).
Proof.
  intros s. split.
  - intros He Hl.
    assert (Hsub : license_subscriptions s = []).
    { subst s. unfold setup, setup_collection; simpl. now rewrite He, Hl. }
    split; [|split; [exact Hsub|]].
    + subst s. unfold setup, setup_collection; simpl. now rewrite He, Hl.
    + intros licenses. rewrite (observe_unsubscribed licenses s Hsub).
      split; reflexivity.
  - intros He.
    assert (Hsub : license_subscriptions s = []).
    { subst s. unfold setup, setup_collection; simpl. now rewrite He. }
    split; [|split; [exact Hsub|]].
    + subst s. unfold setup, setup_collection; simpl. now rewrite He.
    + intros licenses. now rewrite (observe_unsubscribed licenses s Hsub).
Qed.

Lemma collection_needs_license_information_witness :
  let s := setup "7.10.0"
             {| ui_enabled := true; ui_max_bucket_size := 10000;
                kibana_collection_enabled := true |}
             {| licensing := None; telemetryCollectionManager := None;
                usageCollection := Some "usageCollection" |}
             {| cluster_name := "monitoring" |}
             {| license_service_name := "license" |} new_Plugin in
  let licensed :=
    {| getFeature := fun _ => Some {| isAvailable := true; isEnabled := true |} |} in
  license_subscriptions s = []
  /\ calls (bulkUploader (observe [licensed; licensed] s)) = [].
Proof.
  intros s licensed.
  destruct (collection_needs_license_information "7.10.0"
              {| ui_enabled := true; ui_max_bucket_size := 10000;
                 kibana_collection_enabled := true |}
              {| licensing := None; telemetryCollectionManager := None;
                 usageCollection := Some "usageCollection" |}
              {| cluster_name := "monitoring" |}
              {| license_service_name := "license" |} new_Plugin) as [H _].
  destruct H as (_ & Hsub & Hcalls); [reflexivity | reflexivity |].
  split; [exact Hsub | exact (proj1 (Hcalls [licensed; licensed]))].
Defined.

(** C2: with collection enabled and a licensing plugin, every emission makes
    one call on the uploader, [start] when the license reports the monitoring
    feature available and enabled and [handleNotEnabled] otherwise; after any
    emission the uploader is running exactly when that emission was such a
    license; there is never more than one timer, and a license that confirms
    the current state starts none. *)
Theorem bulk_upload_follows_license
    (packageInfo_version : string) (config : MonitoringConfig)
    (plugins : PluginsSetup) (instantiated : ILegacyCustomClusterClient)
    (licenseServiceSetup : MonitoringLicenseService) (fresh : Plugin)
    (licensingPlugin : string) :
  kibana_collection_enabled config = true ->
  licensing plugins = Some licensingPlugin ->
  let s := setup packageInfo_version config plugins instantiated
             licenseServiceSetup fresh in
  let uploader licenses := bulkUploader (observe licenses s) in
  (forall licenses license,
      state (uploader (licenses ++ [license])) = Running
      <-> exists feature,
            getFeature license "monitoring" = Some feature
            /\ isAvailable feature = true /\ isEnabled feature = true)
  /\ (forall licenses,
        calls (uploader licenses)
        = map (call_for (usageCollection plugins)) licenses)
  /\ (forall licenses,
        one_timer_when_running (uploader licenses)
        /\ active_timers (uploader licenses) <= 1)
  /\ (forall licenses license,
        state (uploader (licenses ++ [license])) = state (uploader licenses) ->
        timers_started (uploader (licenses ++ [license]))
        = timers_started (uploader licenses)
        /\ active_timers (uploader (licenses ++ [license]))
           = active_timers (uploader licenses)).
Proof.
  intros He Hl s uploader.
  set (uc := usageCollection plugins).
  assert (Hsub : license_subscriptions s = [license_subscriber uc]).
  { subst s. unfold setup, setup_collection; simpl. now rewrite He, Hl. }
  assert (Hfold : forall licenses,
             uploader licenses
             = fold_left (fun b license => license_subscriber uc license b)
                 licenses (bulkUploader s)).
  { intros licenses. apply observe_subscribed. exact Hsub. }
  assert (Hstep : forall licenses license,
             uploader (licenses ++ [license])
             = license_subscriber uc license (uploader licenses)).
  { intros licenses license. rewrite !Hfold, fold_left_app. reflexivity. }
  split; [|split; [|split]].
  - intros licenses license.
    rewrite Hstep, license_subscriber_state, <- monitoringBulkEnabled_iff.
    destruct (monitoringBulkEnabled license); split; congruence.
  - intros licenses. rewrite Hfold, fold_subscriber_calls. reflexivity.
  - intros licenses.
    assert (H : one_timer_when_running (uploader licenses)).
    { rewrite Hfold. apply fold_subscriber_one_timer. reflexivity. }
    split; [exact H|].
    unfold one_timer_when_running in H.
    destruct (state (uploader licenses)); lia.
  - intros licenses license. rewrite Hstep.
    unfold license_subscriber, bulkUploader_start,
      bulkUploader_handleNotEnabled.
    assert (H : one_timer_when_running (uploader licenses)).
    { rewrite Hfold. apply fold_subscriber_one_timer. reflexivity. }
    unfold one_timer_when_running in H.
    destruct (monitoringBulkEnabled license),
      (state (uploader licenses)) eqn:Hs; simpl;
      intros E; try discriminate E; auto.
Qed.

Lemma bulk_upload_follows_license_witness :
  let s := setup "7.10.0"
             {| ui_enabled := true; ui_max_bucket_size := 10000;
                kibana_collection_enabled := true |}
             {| licensing := Some "licensing"; telemetryCollectionManager := None;
                usageCollection := Some "usageCollection" |}
             {| cluster_name := "monitoring" |}
             {| license_service_name := "license" |} new_Plugin in
  let licensed :=
    {| getFeature := fun _ => Some {| isAvailable := true; isEnabled := true |} |} in
  let unlicensed := {| getFeature := fun _ => None |} in
  calls (bulkUploader (observe [licensed; licensed; unlicensed] s))
  = [call_start (Some "usageCollection"); call_start (Some "usageCollection");
     call_handleNotEnabled].
Proof.
  intros s licensed unlicensed.
  destruct (bulk_upload_follows_license "7.10.0"
              {| ui_enabled := true; ui_max_bucket_size := 10000;
                 kibana_collection_enabled := true |}
              {| licensing := Some "licensing"; telemetryCollectionManager := None;
                 usageCollection := Some "usageCollection" |}
              {| cluster_name := "monitoring" |}
              {| license_service_name := "license" |} new_Plugin "licensing"
              eq_refl eq_refl) as (_ & Hcalls & _).
  exact (Hcalls [licensed; licensed; unlicensed]).
Defined.

(** * Further properties *)

(** ** The key of the configuration wrapper *)

(** X1: the key the wrapper looks up is the text between the first
    [monitoring.] and the next one (the key itself when it has none), and it
    never contains [monitoring.]; stripping a second time changes nothing. *)
Theorem legacy_key_between_occurrences (k : string) :
  legacy_key k
  = (if includes "monitoring." k
     then before_first "monitoring." (after_first "monitoring." k)
     else k)
  /\ includes "monitoring." (legacy_key k) = false
  /\ legacy_key (legacy_key k) = legacy_key k.
Proof.
  pose proof (legacy_key_between_occurrences_form k) as Hform.
  assert (Hfree : includes "monitoring." (legacy_key k) = false).
  { rewrite Hform. destruct (includes "monitoring." k) eqn:Hin; [|exact Hin].
    apply before_first_free. simpl; lia. }
  split; [exact Hform|]. split; [exact Hfree|].
  unfold legacy_key at 1. now rewrite Hfree.
Qed.

(** [monitoring.] begins with its only [m]: an occurrence cannot begin
    inside a text and run into a following [monitoring.]. *)
Lemma monitoring_no_straddle (c : ascii) (q rest : string) :
  starts_with "monitoring." (String c q) = false ->
  starts_with "monitoring." (String c q ++ "monitoring." ++ rest) = false.
Proof.
  intros H.
  do 10 (destruct q as [|? q];
         [simpl; now rewrite ?andb_false_r|]).
  simpl in H |- *. exact H.
Qed.

Lemma after_first_monitoring (p rest : string) :
  includes "monitoring." p = false ->
  includes "monitoring." (p ++ "monitoring." ++ rest) = true
  /\ after_first "monitoring." (p ++ "monitoring." ++ rest) = rest.
Proof.
  induction p as [|c p IH]; intros H.
  - split; reflexivity.
  - cbn [includes] in H. apply orb_false_iff in H as [Hp Hi].
    destruct (IH Hi) as [IHin IHafter].
    pose proof (monitoring_no_straddle c p rest Hp) as Hno.
    change (String c p ++ "monitoring." ++ rest)%string
      with (String c (p ++ "monitoring." ++ rest)) in *.
    split.
    + cbn [includes]. now rewrite IHin, orb_true_r.
    + cbn [after_first]. now rewrite Hno.
Qed.

(** X2: whatever precedes [monitoring.] in a key is dropped together with
    it: [xpack.monitoring.ui.enabled], [monitoring.ui.enabled] and
    [ui.enabled] are the same key, and asking for one returns what asking for
    the other returns, or both fail. *)
Theorem legacyConfigWrapper_get_ignores_prefix
    (config legacyConfig : ConfigObject) (instanceUuid p k : string) :
  includes "monitoring." p = false ->
  includes "monitoring." k = false ->
  legacy_key (p ++ "monitoring." ++ k) = k
  /\ legacy_key k = k
  /\ match legacyConfigWrapper_get config legacyConfig instanceUuid
             (p ++ "monitoring." ++ k),
           legacyConfigWrapper_get config legacyConfig instanceUuid k with
     | Returned a, Returned b => a = b
     | Threw _, Threw _ => True
     | _, _ => False
     end.
Proof.
  intros Hp Hk.
  destruct (after_first_monitoring p k Hp) as [Hin Hafter].
  assert (H1 : legacy_key (p ++ "monitoring." ++ k) = k).
  { rewrite legacy_key_between_occurrences_form, Hin, Hafter.
    now apply before_first_absent. }
  assert (H2 : legacy_key k = k) by (unfold legacy_key; now rewrite Hk).
  split; [exact H1|]. split; [exact H2|].
  unfold legacyConfigWrapper_get. rewrite H1, H2.
  destruct (has config k); [reflexivity|].
  destruct (has legacyConfig k); [reflexivity|].
  destruct (k =? "server.uuid"); [reflexivity | exact I].
Qed.

Lemma legacyConfigWrapper_get_ignores_prefix_witness :
  legacy_key "xpack.monitoring.ui.enabled" = "ui.enabled"
  /\ legacyConfigWrapper_get [("ui.enabled", JBool true)] [] "uuid"
       "xpack.monitoring.ui.enabled" = Returned (JBool true).
Proof.
  destruct (legacyConfigWrapper_get_ignores_prefix
              [("ui.enabled", JBool true)] [] "uuid" "xpack." "ui.enabled"
              eq_refl eq_refl) as (H1 & _ & H3).
  split; [exact H1|].
  destruct (legacyConfigWrapper_get [("ui.enabled", JBool true)] [] "uuid"
              ("xpack." ++ "monitoring." ++ "ui.enabled")) eqn:E;
    vm_compute in E; [|discriminate E].
  injection E as <-. reflexivity.
Defined.

(** X3: the wrapper throws exactly when the stripped key is in neither
    configuration and is not [server.uuid]; the error then names the key as
    it was asked for, prefix included. *)
Theorem legacyConfigWrapper_get_throws_iff
    (config legacyConfig : ConfigObject) (instanceUuid k : string) :
  ((exists e, legacyConfigWrapper_get config legacyConfig instanceUuid k
              = Threw e)
   <-> has config (legacy_key k) = false
       /\ has legacyConfig (legacy_key k) = false
       /\ legacy_key k <> "server.uuid")
  /\ (forall e,
        legacyConfigWrapper_get config legacyConfig instanceUuid k = Threw e ->
        e = new_Error ("Unknown key '" ++ k ++ "'")).
Proof.
  unfold legacyConfigWrapper_get.
  destruct (has config (legacy_key k)), (has legacyConfig (legacy_key k));
    try (split; [split; [intros [e H]; discriminate H
                        | intros (H1 & H2 & _); discriminate]
                | intros e H; discriminate H]).
  destruct (legacy_key k =? "server.uuid") eqn:E.
  - apply String.eqb_eq in E. split.
    + split; [intros [e H]; discriminate H | intros (_ & _ & H); contradiction].
    + intros e H; discriminate H.
  - apply String.eqb_neq in E. split.
    + split; [auto | eauto].
    + intros e H. now injection H.
Qed.

(** X4: presence decides, not truthiness: a key present in the plugin's
    configuration returns the value stored there, be it [false], [0], an
    empty string or [undefined], whatever the legacy configuration and the
    instance UUID are; a key absent there and present in the legacy
    configuration returns the legacy value. *)
Theorem legacyConfigWrapper_get_presence_wins
    (config legacyConfig : ConfigObject) (instanceUuid k : string) (v : jsval) :
  (lookup (legacy_key k) config = Some v ->
   legacyConfigWrapper_get config legacyConfig instanceUuid k = Returned v)
  /\ (lookup (legacy_key k) config = None ->
      lookup (legacy_key k) legacyConfig = Some v ->
      legacyConfigWrapper_get config legacyConfig instanceUuid k = Returned v).
Proof.
  unfold legacyConfigWrapper_get, has, get. split.
  - intros ->. reflexivity.
  - intros -> ->. reflexivity.
Qed.

Lemma legacyConfigWrapper_get_presence_wins_witness :
  legacyConfigWrapper_get [("ui.enabled", JBool false)]
    [("ui.enabled", JBool true)] "uuid" "monitoring.ui.enabled"
  = Returned (JBool false)
  /\ legacyConfigWrapper_get [] [("server.uuid", JStr "from-legacy")] "uuid"
       "server.uuid"
     = Returned (JStr "from-legacy").
Proof.
  split.
  - exact (proj1 (legacyConfigWrapper_get_presence_wins
                    [("ui.enabled", JBool false)] [("ui.enabled", JBool true)]
                    "uuid" "monitoring.ui.enabled" (JBool false)) eq_refl).
  - exact (proj2 (legacyConfigWrapper_get_presence_wins
                    [] [("server.uuid", JStr "from-legacy")]
                    "uuid" "server.uuid" (JStr "from-legacy"))
             eq_refl eq_refl).
Defined.

(** ** The bridge of a legacy handler *)

Lemma or_else_truthy (a b : jsval) :
  truthy b = true -> truthy (or_else a b) = true.
Proof. unfold or_else. destruct (truthy a) eqn:E; auto. Qed.

Lemma error_statusCode_truthy (err : jsval) :
  truthy (error_statusCode err) = true.
Proof.
  unfold error_statusCode. repeat apply or_else_truthy. reflexivity.
Qed.

(** X5: a custom-error response always carries a truthy status (never [0],
    [undefined], [null] or an empty string) and the thrown value itself as
    body. *)
Theorem handler_catch_custom_error_status (err status body : jsval) :
  handler_catch err = Returned (res_customError status body) ->
  truthy status = true /\ status = error_statusCode err /\ body = err.
Proof.
  unfold handler_catch. destruct (nullish err); [discriminate|].
  destruct (Boom.isBoom err || negb (strict_eq_num (error_statusCode err) 500)).
  - intros H. injection H as <- <-.
    split; [apply error_statusCode_truthy | auto].
  - destruct (wrapError err); discriminate.
Qed.

Lemma handler_catch_custom_error_status_witness :
  truthy (JNum 403) = true
  /\ JNum 403 = error_statusCode forbidden_error
  /\ forbidden_error = forbidden_error.
Proof.
  apply (handler_catch_custom_error_status forbidden_error (JNum 403)
           forbidden_error).
  reflexivity.
Defined.

Lemma handler_catch_not_ok (err body : jsval) :
  handler_catch err <> Returned (res_ok body).
Proof.
  unfold handler_catch. destruct (nullish err); [discriminate|].
  destruct (Boom.isBoom err || negb (strict_eq_num (error_statusCode err) 500));
    [discriminate|].
  destruct (wrapError err); discriminate.
Qed.

(** X6: the bridge answers with the success response exactly when the legacy
    handler returned, and the body is what it returned: no thrown value is
    ever turned into a success. *)
Theorem handler_ok_iff_returned
    (mbSafeQuery : (unit -> outcome jsval) -> outcome jsval)
    (cluster esDataClient : ClusterClient)
    (options_handler : LegacyRequest -> outcome jsval) (req result : jsval) :
  handler mbSafeQuery cluster esDataClient options_handler req
  = Returned (res_ok result)
  <-> options_handler (legacyRequest_of mbSafeQuery cluster esDataClient req)
      = Returned result.
Proof.
  unfold handler.
  destruct (options_handler _) as [v|err].
  - split; intros H; injection H as ->; reflexivity.
  - split; [intros H; now apply handler_catch_not_ok in H | discriminate].
Qed.

(** X7: a legacy handler that throws [undefined] or [null] gets no response:
    reading [err.output] in the catch block is itself a [TypeError], which
    leaves the bridge. *)
Theorem handler_rejects_nullish_throw
    (mbSafeQuery : (unit -> outcome jsval) -> outcome jsval)
    (cluster esDataClient : ClusterClient)
    (options_handler : LegacyRequest -> outcome jsval) (req err : jsval) :
  options_handler (legacyRequest_of mbSafeQuery cluster esDataClient req)
  = Threw err ->
  nullish err = true ->
  exists e,
    handler mbSafeQuery cluster esDataClient options_handler req = Threw e
    /\ is_error_instance e = true
    /\ prop e "name" = JStr "TypeError".
Proof.
  intros H Hn. unfold handler, handler_catch. rewrite H, Hn.
  eexists. split; [reflexivity|]. split; reflexivity.
Qed.

Lemma handler_rejects_nullish_throw_witness :
  exists e,
    handler run_query (named_client "monitoring") (named_client "data")
      (fun _ => Threw JNull) (JObj PlainObject []) = Threw e
    /\ is_error_instance e = true
    /\ prop e "name" = JStr "TypeError".
Proof.
  apply (handler_rejects_nullish_throw run_query (named_client "monitoring")
           (named_client "data") (fun _ => Threw JNull) (JObj PlainObject [])
           JNull); reflexivity.
Defined.

(** X8: a thrown value that is not an [Error] instance and whose status
    comes out as 500 (a string, a number, a plain object without status
    fields) gets no response either: [wrapError] hands it to
    [Boom.boomify], which refuses to wrap it. *)
Theorem handler_catch_cannot_wrap_non_error (err : jsval) :
  nullish err = false ->
  is_error_instance err = false ->
  error_statusCode err = JNum 500 ->
  handler_catch err = Threw (new_Error "Cannot wrap non-Error object").
Proof.
  intros Hn He Hs.
  unfold handler_catch, wrapError, Boom.isBoom, Boom.boomify.
  rewrite Hn, Hs, He. reflexivity.
Qed.

Lemma handler_catch_cannot_wrap_non_error_witness :
  handler_catch (JStr "timed out")
  = Threw (new_Error "Cannot wrap non-Error object").
Proof.
  apply handler_catch_cannot_wrap_non_error; reflexivity.
Defined.

(** ** Route registration *)

Lemma assign_twice (k : string) (v : jsval) (fields : list (string * jsval)) :
  assign k v (assign k v fields) = assign k v fields.
Proof.
  induction fields as [|[k' v'] rest IH]; simpl.
  - now rewrite String.eqb_refl.
  - destruct (k' =? k) eqn:E; simpl.
    + now rewrite String.eqb_refl.
    + now rewrite E, IH.
Qed.

Lemma set_prop_twice (o : jsval) (k : string) (v : jsval) :
  set_prop (set_prop o k v) k v = set_prop o k v.
Proof. destruct o; try reflexivity. simpl. now rewrite assign_twice. Qed.

Lemma get_config_validate_defined (options : RouteOptions) :
  truthy (get_config_validate options) = true ->
  get_config_validate options = prop (config options) "validate"
  /\ exists cls fields, config options = JObj cls fields.
Proof.
  unfold get_config_validate, opt_prop. intros H.
  destruct (nullish (config options)) eqn:Hn; [discriminate H|].
  assert (Hd : prop (config options) "validate" <> JUndefined).
  { intros E. rewrite E in H. discriminate H. }
  split; [|exact (prop_defined_inv _ _ Hd)].
  destruct (prop (config options) "validate"); congruence.
Qed.

(** X9: rewriting the validation of a route a second time changes nothing:
    options that went through [route] once come out of a second
    registration as they went in. *)
Theorem with_validate_idempotent (options : RouteOptions) :
  with_validate (with_validate options) = with_validate options.
Proof.
  unfold with_validate at 2 3.
  destruct (truthy (get_config_validate options)
            && truthy (prop (get_config_validate options) "payload")) eqn:Hc.
  - apply andb_true_iff in Hc as [Ht Hp].
    destruct (get_config_validate_defined options Ht)
      as (Hv & cls & fields & Hcfg).
    destruct (truthy_prop_object _ _ Hp) as (vcls & vfields & Hobj).
    set (v := get_config_validate options) in *.
    set (v' := set_prop v "body" (prop v "payload")).
    assert (Hv' : exists fields', v' = JObj vcls fields').
    { subst v'. rewrite Hobj. simpl. eauto. }
    destruct Hv' as [fields' Hv'obj].
    assert (Hpay : prop v' "payload" = prop v "payload").
    { subst v'. apply prop_set_prop_other. discriminate. }
    assert (Htv' : truthy v' = true) by (rewrite Hv'obj; reflexivity).
    assert (E : set_prop v' "body" (prop v "payload") = v').
    { subst v'. apply set_prop_twice. }
    set (o' := {| method := method options; path := path options;
                  config := set_prop (config options) "validate" v';
                  validate := v';
                  options_handler := options_handler options |}).
    assert (Hg : get_config_validate o' = v').
    { unfold get_config_validate, opt_prop. subst o'. cbn [config].
      rewrite Hcfg. cbn [set_prop nullish prop].
      rewrite lookup_assign_same, Hv'obj. reflexivity. }
    unfold with_validate. rewrite Hg, Hpay, Hp, Htv', E. cbn [andb].
    subst o'. cbn [method path config options_handler].
    now rewrite set_prop_twice.
  - set (o' := {| method := method options; path := path options;
                  config := config options;
                  validate := get_config_validate options;
                  options_handler := options_handler options |}).
    assert (Hg : get_config_validate o' = get_config_validate options)
      by reflexivity.
    unfold with_validate. rewrite Hg, Hc. reflexivity.
Qed.

(** X10: [route] touches nothing but the validation: the method, the path
    and the handler of the options are kept, and so is every entry of
    [config] other than [validate].  Without a payload validator to copy,
    [config] is left exactly as it was and [options.validate] is what
    [config.validate] resolved to; with one, [config.validate] is the very
    value of [options.validate], its [body] is the payload validator, and
    every other entry of it (such as [query] or [params]) is as declared. *)
Theorem with_validate_keeps_the_rest (options : RouteOptions) :
  let declared := get_config_validate options in
  let copies := truthy declared && truthy (prop declared "payload") in
  method (with_validate options) = method options
  /\ path (with_validate options) = path options
  /\ options_handler (with_validate options) = options_handler options
  /\ (forall k, k <> "body" ->
        prop (validate (with_validate options)) k = prop declared k)
  /\ (forall k, k <> "validate" ->
        prop (config (with_validate options)) k = prop (config options) k)
  /\ (copies = false ->
      config (with_validate options) = config options
      /\ validate (with_validate options) = declared)
  /\ (copies = true ->
      prop (config (with_validate options)) "validate"
      = validate (with_validate options)
      /\ prop (validate (with_validate options)) "body"
         = prop declared "payload"
      /\ forall k, k <> "body" ->
           prop (prop (config (with_validate options)) "validate") k
           = prop (prop (config options) "validate") k).
Proof.
  intros declared copies. subst copies. unfold with_validate. fold declared.
  destruct (truthy declared && truthy (prop declared "payload")) eqn:Hc;
    cbn [method path options_handler validate config].
  - apply andb_true_iff in Hc as [Ht Hp].
    destruct (get_config_validate_defined options Ht)
      as (Hv & cls & fields & Hcfg).
    fold declared in Hv.
    assert (Hsame : prop (set_prop (config options) "validate"
                            (set_prop declared "body" (prop declared "payload")))
                      "validate"
                    = set_prop declared "body" (prop declared "payload")).
    { apply prop_set_prop_same. eauto. }
    repeat split; auto; try discriminate.
    + intros k Hk. now apply prop_set_prop_other.
    + intros k Hk. now apply prop_set_prop_other.
    + apply prop_set_prop_same. eapply truthy_prop_object; eassumption.
    + intros k Hk. rewrite Hsame, <- Hv. now apply prop_set_prop_other.
  - repeat split; auto; discriminate.
Qed.

Lemma with_validate_keeps_the_rest_witness :
  let declared :=
    JObj PlainObject [("payload", JStr "body schema");
                      ("query", JStr "query schema")] in
  let options := {| method := "POST"; path := "/api/monitoring/v1/clusters";
                    config := JObj PlainObject [("validate", declared)];
                    validate := JUndefined;
                    options_handler := fun _ => Returned JNull |} in
  prop (validate (with_validate options)) "query" = JStr "query schema"
  /\ prop (config (with_validate options)) "validate"
     = validate (with_validate options).
Proof.
  intros declared options.
  destruct (with_validate_keeps_the_rest options)
    as (_ & _ & _ & H & _ & _ & Hcopy).
  split.
  - rewrite (H "query"); [reflexivity | discriminate].
  - exact (proj1 (Hcopy eq_refl)).
Defined.

(** X11: a registration that succeeds appends exactly one entry to the
    router, after those already there and on the router method named by
    [options.method]; serving a request through the handler of that entry
    gives the success response around what the legacy handler returns, and
    what the catch block makes of what it throws. *)
Theorem route_registers_the_bridge
    (mbSafeQuery : (unit -> outcome jsval) -> outcome jsval)
    (cluster esDataClient : ClusterClient)
    (options : RouteOptions) (router router' : Router) :
  snd (route mbSafeQuery cluster esDataClient options router)
  = Returned router' ->
  exists entry,
    router' = router ++ [entry]
    /\ verb_name (verb entry) = method options
    /\ forall req,
         registered_handler entry req
         = match options_handler options
                   (legacyRequest_of mbSafeQuery cluster esDataClient req) with
           | Returned result => Returned (res_ok result)
           | Threw err => handler_catch err
           end.
Proof.
  unfold route; cbn [snd].
  destruct (method options =? "POST") eqn:E1;
    [|destruct (method options =? "GET") eqn:E2;
      [|destruct (method options =? "PUT") eqn:E3]];
    intros H; try discriminate H; injection H as <-;
    eexists; (split; [reflexivity|]); (split; [|intros req; reflexivity]);
    symmetry; now apply String.eqb_eq.
Qed.

Lemma route_registers_the_bridge_witness :
  exists entry,
    [entry] = [] ++ [entry]
    /\ verb_name (verb entry) = "PUT"
    /\ forall req,
         registered_handler entry req
         = match (fun _ : LegacyRequest => Returned (JStr "saved"))
                   (legacyRequest_of run_query (named_client "monitoring")
                      (named_client "data") req) with
           | Returned result => Returned (res_ok result)
           | Threw err => handler_catch err
           end.
Proof.
  destruct (route_registers_the_bridge run_query (named_client "monitoring")
              (named_client "data")
              {| method := "PUT"; path := "/api/monitoring/v1/setup";
                 config := JUndefined; validate := JUndefined;
                 options_handler := fun _ => Returned (JStr "saved") |}
              [] _ eq_refl) as (entry & H1 & H2 & H3).
  exists entry. simpl in H1. injection H1 as H1.
  split; [reflexivity|]. split; [exact H2 | exact H3].
Defined.

(** ** Lifecycle *)

(** X12: [stop()] on an instance whose cluster is still the empty object the
    class starts with (no [setup] yet, with or without [start]) throws a
    [TypeError] at [this.cluster.close()]; the guard [if (this.cluster)]
    does not hold it back, and the license service is not reached. *)
Theorem stop_before_setup_throws (this : Plugin) (n : nat) (seen : list Effect) :
  cluster this = EmptyObject ->
  0 < n ->
  stop_times n this seen
  = Threw (new_TypeError "this.cluster.close is not a function").
Proof.
  intros Hc Hn. destruct n as [|n]; [lia|].
  simpl. unfold stop. rewrite Hc. reflexivity.
Qed.

Lemma stop_before_setup_throws_witness :
  stop_times 1
    (start {| elasticsearch_client := {| client_name := "core" |};
              savedObjects := {| service_name := "savedObjects" |} |}
       new_Plugin) []
  = Threw (new_TypeError "this.cluster.close is not a function").
Proof.
  apply stop_before_setup_throws; [reflexivity | lia].
Defined.

(** X13: [setup] does exactly one of three things about collection: it
    subscribes to the license stream and logs nothing, or it logs one line
    and subscribes to nothing.  It subscribes exactly when collection is
    enabled and the licensing plugin is there. *)
Theorem setup_subscribes_or_logs
    (packageInfo_version : string) (config : MonitoringConfig)
    (plugins : PluginsSetup) (instantiated : ILegacyCustomClusterClient)
    (licenseServiceSetup : MonitoringLicenseService) (fresh : Plugin) :
  let s := setup packageInfo_version config plugins instantiated
             licenseServiceSetup fresh in
  List.length (license_subscriptions s) + List.length (kibanaMonitoringLog s) = 1
  /\ (List.length (license_subscriptions s) = 1
      <-> kibana_collection_enabled config = true
          /\ licensing plugins <> None).
Proof.
  unfold setup, setup_collection; cbn [license_subscriptions kibanaMonitoringLog].
  destruct (kibana_collection_enabled config), (licensing plugins); simpl;
    (split; [reflexivity|]); split; try discriminate; try (intros [H1 H2]);
    try discriminate; try congruence; auto.
  split; [reflexivity | discriminate].
Qed.

(** X14: the collection registered by [setup] is given the cluster client
    that [setup] has just created, the one the instance holds and [stop()]
    closes, never the empty object of a fresh instance, together with the
    configured [max_bucket_size]; there is at most one registration, and none
    without a telemetry collection manager. *)
Theorem setup_registers_live_cluster
    (packageInfo_version : string) (config : MonitoringConfig)
    (plugins : PluginsSetup) (instantiated : ILegacyCustomClusterClient)
    (licenseServiceSetup : MonitoringLicenseService) (fresh : Plugin) :
  let s := setup packageInfo_version config plugins instantiated
             licenseServiceSetup fresh in
  (forall c, In c (monitoringCollections s) ->
     esCluster c = Live instantiated
     /\ esCluster c = cluster (this s)
     /\ customContext_maxBucketSize c = ui_max_bucket_size config)
  /\ List.length (monitoringCollections s) <= 1
  /\ (monitoringCollections s = []
      <-> telemetryCollectionManager plugins = None).
Proof.
  unfold setup, setup_telemetry; cbn [monitoringCollections this cluster].
  destruct (telemetryCollectionManager plugins).
  - split; [|split; [simpl; lia | split; discriminate]].
    intros c [<- | []]. auto.
  - split; [intros c []|]. split; [simpl; lia | split; reflexivity].
Qed.

(** ** The snapshot flag *)

Lemma fold_case_length (s : string) :
  String.length (fold_case s) = String.length s.
Proof. induction s; simpl; congruence. Qed.

Lemma string_length_app (a b : string) :
  String.length (a ++ b) = String.length a + String.length b.
Proof. induction a; simpl; congruence. Qed.

Lemma string_app_assoc (a b c : string) :
  ((a ++ b) ++ c = a ++ b ++ c)%string.
Proof. induction a; simpl; congruence. Qed.

(** X15: the pattern is not anchored: a version flagged as a snapshot stays
    flagged whatever is put before or after it, and no version shorter than
    the nine characters of [-snapshot] is flagged. *)
Theorem snapshot_survives_affixes (v pre post : string) :
  snapshot (kibanaStats_of v) = true ->
  snapshot (kibanaStats_of (pre ++ v ++ post)) = true
  /\ 9 <= String.length v.
Proof.
  unfold kibanaStats_of, snapshotRegex_test; cbn [snapshot].
  rewrite !test_literal_i_spec.
  intros (a & mid & b & -> & Hmid). split.
  - exists (pre ++ a)%string, mid, (b ++ post)%string. split; [|exact Hmid].
    now rewrite !string_app_assoc.
  - apply (f_equal String.length) in Hmid.
    rewrite fold_case_length in Hmid. simpl in Hmid.
    rewrite !string_length_app. lia.
Qed.

Lemma snapshot_survives_affixes_witness :
  snapshot (kibanaStats_of ("v" ++ "8.0.0-SNAPSHOT" ++ "+build.7")) = true
  /\ 9 <= String.length "8.0.0-SNAPSHOT".
Proof.
  apply snapshot_survives_affixes. reflexivity.
Defined.

(** ** Clients of collaborating plugins *)

(** X16: [getAlertsClient] and [getActionsClient] never throw: whatever the
    plugin's call throws, the result is [null], the same answer as for a
    call that returned [null]; a client that was returned is passed on
    unchanged. *)
Theorem plugin_clients_swallow_errors
    (clientWithRequest : jsval -> outcome jsval) (req : jsval) :
  (exists client,
      getAlertsClient clientWithRequest req = Returned client
      /\ getActionsClient clientWithRequest req = Returned client)
  /\ (getAlertsClient clientWithRequest req = Returned JNull
      <-> clientWithRequest req = Returned JNull
          \/ exists err, clientWithRequest req = Threw err)
  /\ (forall client,
        clientWithRequest req = Returned client ->
        getAlertsClient clientWithRequest req = Returned client
        /\ getActionsClient clientWithRequest req = Returned client).
Proof.
  unfold getAlertsClient, getActionsClient.
  destruct (clientWithRequest req) as [client|err].
  - split; [eauto|]. split.
    + split; [auto | intros [H | [e H]]; [exact H | discriminate H]].
    + intros c H. injection H as ->. auto.
  - split; [eauto|]. split.
    + split; eauto.
    + intros c H. discriminate H.
Qed.
